(** * RcloneTray: the rclone driver ([src/utils/rclone.js])

    A shallow embedding of the driver that locates the rclone binary's
    version and configuration file, launches the [rcd] daemon, frames and
    parses its log output, detects the life-cycle signals and builds the
    remote-control requests.

    JavaScript strings are modelled by [string]; every character stands for
    one UTF-16 code unit below 256, which covers the text rclone prints.
    Indices are [Z], as [indexOf] returns [-1] and [slice] accepts negative
    positions. *)

From Equations Require Import Equations.
From stdpp Require Import gmap strings list.
From Stdlib Require Import ZArith Ascii String DecimalString Lia.

Set Default Proof Using "Type".
Set Warnings "-register-all".
Open Scope Z_scope.

(** ** JavaScript string primitives used by the driver *)

Module JSString.

Definition LF : ascii := "010"%char.
Definition CR : ascii := "013"%char.
Definition NL : string := String LF EmptyString.

Definition len (s : string) : Z := Z.of_nat (String.length s).

(** [s.startsWith(p)] *)
Definition startsWith (s p : string) : bool := String.prefix p s.

(** [s.indexOf(sub)]: position of the first occurrence, [-1] if none. *)
Fixpoint indexOf_from (s sub : string) (i : Z) : Z :=
  if String.prefix sub s then i
  else match s with
       | EmptyString => -1
       | String _ s' => indexOf_from s' sub (i + 1)
       end.

Definition indexOf (s sub : string) : Z := indexOf_from s sub 0.

(** [s.includes(sub)] *)
Definition includes (s sub : string) : bool := negb (indexOf s sub =? -1).

(** Relative index resolution shared by [slice]'s two arguments. *)
Definition clamp (n i : Z) : Z :=
  if i <? 0 then Z.max (n + i) 0 else Z.min i n.

(** [s.slice(start, end)] *)
Definition slice2 (s : string) (start end_ : Z) : string :=
  let from := clamp (len s) start in
  let to := clamp (len s) end_ in
  String.substring (Z.to_nat from) (Z.to_nat (Z.max (to - from) 0)) s.

(** [s.slice(start)] *)
Definition slice1 (s : string) (start : Z) : string :=
  let from := clamp (len s) start in
  String.substring (Z.to_nat from) (Z.to_nat (len s - from)) s.

(** White space and line terminators: the set shared by [trim] and the
    regular-expression class [\s], restricted to code units below 256. *)
Definition isSpace (c : ascii) : bool :=
  let n := nat_of_ascii c in
  ((9 <=? n)%nat && (n <=? 13)%nat) || (n =? 32)%nat || (n =? 160)%nat.

Fixpoint trimStart (s : string) : string :=
  match s with
  | String c s' => if isSpace c then trimStart s' else s
  | EmptyString => EmptyString
  end.

Fixpoint trimEnd (s : string) : string :=
  match s with
  | EmptyString => EmptyString
  | String c s' =>
      match trimEnd s' with
      | EmptyString => if isSpace c then EmptyString else String c EmptyString
      | t => String c t
      end
  end.

(** [s.trim()] *)
Definition trim (s : string) : string := trimEnd (trimStart s).

(** [s.split(c)] for a one-character separator; [cur] is the piece being
    read.  The result always has at least one element. *)
Fixpoint splitChar_aux (c : ascii) (s cur : string) : list string :=
  match s with
  | EmptyString => [cur]
  | String a s' =>
      if Ascii.eqb a c then cur :: splitChar_aux c s' EmptyString
      else splitChar_aux c s' (cur +:+ String a EmptyString)
  end.

Definition splitChar (c : ascii) (s : string) : list string :=
  splitChar_aux c s EmptyString.

(** [s.split(/\r?\n/)] *)
Fixpoint splitLines_aux (s cur : string) : list string :=
  match s with
  | EmptyString => [cur]
  | String a s' =>
      if Ascii.eqb a LF then cur :: splitLines_aux s' EmptyString
      else match s' with
           | String b s'' =>
               if Ascii.eqb a CR && Ascii.eqb b LF
               then cur :: splitLines_aux s'' EmptyString
               else splitLines_aux s' (cur +:+ String a EmptyString)
           | EmptyString => [cur +:+ String a EmptyString]
           end
  end.

Definition splitLines (s : string) : list string :=
  splitLines_aux s EmptyString.

(** [s.split(/\s+/)]: [inrun] tells that the previous character belonged
    to a separator, so a run of white space separates once. *)
Fixpoint splitSpaces_aux (s cur : string) (inrun : bool) : list string :=
  match s with
  | EmptyString => [cur]
  | String a s' =>
      if isSpace a
      then if inrun then splitSpaces_aux s' cur true
           else cur :: splitSpaces_aux s' EmptyString true
      else splitSpaces_aux s' (cur +:+ String a EmptyString) false
  end.

Definition splitSpaces (s : string) : list string :=
  splitSpaces_aux s EmptyString false.

(** [xs.join(sep)] *)
Fixpoint join (sep : string) (xs : list string) : string :=
  match xs with
  | [] => EmptyString
  | [x] => x
  | x :: rest => x +:+ sep +:+ join sep rest
  end.

(** Whether the character [c] occurs in [s]. *)
Fixpoint occurs (c : ascii) (s : string) : bool :=
  match s with
  | EmptyString => false
  | String a s' => Ascii.eqb a c || occurs c s'
  end.

(** JavaScript truthiness of a string. *)
Definition truthy (s : string) : bool :=
  match s with EmptyString => false | _ => true end.


End JSString.
Import JSString.

(** ** Values, exceptions and effects *)

(** The values [JSON.parse] can produce.  A number [JNum m e] stands for
    [m * 10^e]; the driver never computes with numbers.  An object keeps its
    properties in insertion order, and a property is read at its first
    entry. *)
Inductive json : Type :=
| JNull
| JBool (b : bool)
| JNum (m e : Z)
| JStr (s : string)
| JArr (items : list json)
| JObj (props : list (string * json)).

(** What is thrown: a [TypeError], an [Error] made with a message, or the
    error an event emitter makes when ['error'] is emitted with a payload
    that is no [Error] while nobody listens to ['error']; that error keeps
    the payload as its [context]. *)
Inductive exn : Type :=
| TypeError
| Error (message : string)
| UnhandledError (context : option json).

(** How a call ends: with a value, or with a thrown exception. *)
Inductive completion (A : Type) : Type :=
| Normal (a : A)
| Throw (e : exn).
Arguments Normal {A} a.
Arguments Throw {A} e.

(** Computations over a mutable state [S] that may throw; the state reached
    when the exception is thrown is kept, as in JavaScript. *)
Definition JS (S A : Type) : Type := S -> S * completion A.

Definition ret {S A} (a : A) : JS S A := fun s => (s, Normal a).

Definition throw {S A} (e : exn) : JS S A := fun s => (s, Throw e).

Definition bind {S A B} (m : JS S A) (k : A -> JS S B) : JS S B :=
  fun s => match m s with
           | (s', Normal a) => k a s'
           | (s', Throw e) => (s', Throw e)
           end.

Definition modify {S} (f : S -> S) : JS S unit := fun s => (f s, Normal tt).

Definition get {S} : JS S S := fun s => (s, Normal s).

Notation "'let*' x := m 'in' k" := (bind m (fun x => k))
  (at level 10, x name, m at level 100, k at level 200).
Notation "m >> k" := (bind m (fun _ => k))
  (at level 80, right associativity).

Definition inspect {A} (a : A) : {b : A | a = b} := exist _ a eq_refl.

(** ** The line framer ([streamReadlineHandler]) *)

Section LineFramer.
Context {St : Type}.
Variable callback : string -> JS St unit.

(** The [while (~n)] loop of the ['data'] listener, with [n] read at the
    head of every round.  It returns the backlog left in the closure; when
    the callback throws, the line it was given has not been cut off. *)
Equations? while_lines (backlog : string) (s : St)
  : St * (string * completion unit) by wf (String.length backlog) lt :=
  while_lines backlog s with inspect (indexOf backlog NL) := {
    | exist _ n Hn with inspect (Z.lnot n =? 0) := {
      | exist _ true _ := (s, (backlog, Normal tt));
      | exist _ false Hc with callback (slice2 backlog 0 n) s := {
        | (s', Throw e) := (s', (backlog, Throw e));
        | (s', Normal _) := while_lines (slice1 backlog (n + 1)) s' } } }.
Proof.
  assert (forall t i, 0 <= i ->
            indexOf_from t NL i = -1 \/
            i <= indexOf_from t NL i < i + len t) as Hrange.
  { induction t as [|c t IH]; intros i Hi; [left; reflexivity|].
    cbn [indexOf_from].
    change (String.prefix NL (String c t))
      with (if ascii_dec LF c then String.prefix EmptyString t else false).
    destruct (ascii_dec LF c) as [_|_].
    - assert (String.prefix EmptyString t = true) as -> by (destruct t; reflexivity).
      right. unfold len.
      change (String.length (String c t)) with (S (String.length t)). lia.
    - destruct (IH (i + 1)) as [->|Hr]; [lia | left; reflexivity |].
      right. unfold len in *.
      change (String.length (String c t)) with (S (String.length t)). lia. }
  assert (forall t k m, (String.length (String.substring k m t) <= m)%nat)
    as Hsub.
  { induction t as [|c t IH]; intros [|k] [|m]; cbn; try lia.
    - specialize (IH 0%nat m). lia.
    - apply IH.
    - apply IH. }
  assert (n <> -1) as Hfound by (intros ->; discriminate).
  destruct (Hrange backlog 0) as [Hnone|Hin]; [lia | unfold indexOf in Hn; lia |].
  unfold indexOf in Hn. rewrite Hn in Hin.
  unfold slice1, clamp. destruct (Z.ltb_spec (n + 1) 0) as [|_]; [lia|].
  specialize (Hsub backlog (Z.to_nat (Z.min (n + 1) (len backlog)))
                   (Z.to_nat (len backlog - Z.min (n + 1) (len backlog)))).
  unfold len in *. lia.
Qed.

(** [stream.on('data', ...)]: the chunk is appended to the backlog, then
    the complete lines are handed over. *)
Definition onData (backlog data : string) (s : St)
  : St * (string * completion unit) :=
  while_lines (backlog +:+ data) s.

(** [stream.on('end', ...)]: a non-empty backlog is handed over as it is;
    the closure variable is left untouched. *)
Definition onEnd (backlog : string) : JS St unit :=
  if truthy backlog then callback backlog else ret tt.

End LineFramer.

(** *** The framer run on a whole stream

    A callback that only records the line it is given; the chunks are
    delivered in order to one framer, then the stream ends. *)

Definition collect (line : string) : JS (list string) unit :=
  modify (fun seen => seen ++ [line]).

Fixpoint feedChunks (chunks : list string) (backlog : string)
  : JS (list string) string :=
  match chunks with
  | [] => ret backlog
  | data :: rest =>
      fun seen =>
        match onData collect backlog data seen with
        | (seen', (backlog', Normal _)) => feedChunks rest backlog' seen'
        | (seen', (_, Throw e)) => (seen', Throw e)
        end
  end.

(** The lines handed to the callback for a stream of [chunks]. *)
Definition framed (chunks : list string) : list string :=
  fst ((let* backlog := feedChunks chunks EmptyString in
        onEnd collect backlog) []).

Definition concatChunks (chunks : list string) : string :=
  fold_right String.append EmptyString chunks.

(** The lines of a text as the specification words them: the pieces
    between line feeds, in order, every piece that a line feed ends being a
    line, and the last piece being one only when it is not empty. *)
Definition specLines (text : string) : list string :=
  let pieces := splitChar LF text in
  removelast pieces ++
  match last pieces with
  | Some tail => if truthy tail then [tail] else []
  | None => []
  end.

(** Every line followed by its line feed. *)
Definition unlines (ls : list string) : string :=
  fold_right (fun l acc => l +:+ NL +:+ acc) EmptyString ls.

Definition noLF (s : string) : Prop := occurs LF s = false.

(** ** Property reads and method calls on parsed values *)

Fixpoint lookupProp (k : string) (props : list (string * json)) : option json :=
  match props with
  | [] => None
  | (k', v) :: rest => if String.eqb k' k then Some v else lookupProp k rest
  end.

(** [v.k] for the two names the driver reads, [source] and [msg], which no
    prototype defines: [None] is [undefined]; reading a property of [null]
    throws. *)
Definition getProp {S} (v : json) (k : string) : JS S (option json) :=
  match v with
  | JNull => throw TypeError
  | JObj props => ret (lookupProp k props)
  | _ => ret None
  end.

(** [x.startsWith(p)]: only strings have the method. *)
Definition callStartsWith {S} (x : option json) (p : string) : JS S bool :=
  match x with
  | Some (JStr s) => ret (startsWith s p)
  | _ => throw TypeError
  end.

Definition isStr (s : string) (v : json) : bool :=
  match v with JStr t => String.eqb t s | _ => false end.

(** [x.includes(p)]: a string searches for a substring, an array for an
    element equal to [p]; nothing else has the method. *)
Definition callIncludes {S} (x : option json) (p : string) : JS S bool :=
  match x with
  | Some (JStr s) => ret (includes s p)
  | Some (JArr items) => ret (existsb (isStr p) items)
  | _ => throw TypeError
  end.

(** [x.slice(start)]: strings and arrays have the method. *)
Definition callSlice {S} (x : option json) (start : Z) : JS S json :=
  match x with
  | Some (JStr s) => ret (JStr (slice1 s start))
  | Some (JArr items) =>
      ret (JArr (drop (Z.to_nat (clamp (Z.of_nat (List.length items)) start))
                      items))
  | _ => throw TypeError
  end.

(** ** The daemon supervisor ([rcd]) *)

(** The calls made on the process handle, in call order:
    [proc.emit('data', v)], [proc.emit('ready', v)], [proc.emit('error', v)]
    and [proc.kill(sig)].  A payload [None] is [undefined].  A call is
    recorded when it is made.  The listeners of the caller are taken to
    return normally; whether the caller listens to ['error'] at all is part
    of the state of the handle, since emitting ['error'] throws when nobody
    does. *)
Inductive Signal : Type :=
| Data (v : json)
| Ready (v : json)
| Failure (v : option json)
| Kill (sig : Z).

Inductive StreamId : Type := Stdout | Stderr.

Inductive StreamEvent : Type :=
| Chunk (data : string)
| End.

(** The mutable state behind one daemon handle: whether [emitReady] is
    still registered on ['data'], whether a listener is registered on
    ['error'], the calls made so far, the two framers' backlogs and the
    number of clock readings taken. *)
Record Daemon : Type := mkDaemon {
  listening : bool;
  error_listener : bool;
  emitted : list Signal;
  stdout_backlog : string;
  stderr_backlog : string;
  clock : nat;
}.

Definition emit (sg : Signal) : JS Daemon unit :=
  modify (fun d => mkDaemon (listening d) (error_listener d)
                            (emitted d ++ [sg])
                            (stdout_backlog d) (stderr_backlog d) (clock d)).

(** [proc.emit('error', payload)]: the call returns when a listener is
    registered on ['error'], and throws when none is. *)
Definition emitError (payload : option json) : JS Daemon unit :=
  emit (Failure payload) >>
  let* d := get in
  if error_listener d then ret tt else throw (UnhandledError payload).

(** [proc.off('data', emitReady)] *)
Definition off_emitReady : JS Daemon unit :=
  modify (fun d => mkDaemon false (error_listener d) (emitted d)
                            (stdout_backlog d) (stderr_backlog d) (clock d)).

Definition backlog_of (d : Daemon) (i : StreamId) : string :=
  match i with
  | Stdout => stdout_backlog d
  | Stderr => stderr_backlog d
  end.

Definition set_backlog (i : StreamId) (b : string) (d : Daemon) : Daemon :=
  match i with
  | Stdout => mkDaemon (listening d) (error_listener d) (emitted d)
                       b (stderr_backlog d) (clock d)
  | Stderr => mkDaemon (listening d) (error_listener d) (emitted d)
                       (stdout_backlog d) b (clock d)
  end.

Definition ready_source_marker : string := "rcserver/rcserver.go".
Definition ready_msg_marker : string := "Serving remote control".
Definition failure_marker : string := "Failed to start remote control:".

(** The ['data'] listener [emitReady].  The listener takes itself off
    ['data'] on the ready branch only; on the failure branch [proc.kill(1)]
    is reached only if [proc.emit('error', _)] returns. *)
Definition emitReady (data : json) : JS Daemon unit :=
  let* source := getProp data "source" in
  let* from_rcserver := callStartsWith source ready_source_marker in
  let* serving :=
    (if from_rcserver
     then let* msg := getProp data "msg" in
          callStartsWith msg ready_msg_marker
     else ret false) in
  if serving then
    off_emitReady >>
    let* msg := getProp data "msg" in
    let* address := callSlice msg 26 in
    emit (Ready address)
  else
    let* msg := getProp data "msg" in
    let* failed := callIncludes msg failure_marker in
    if failed then
      let* payload := getProp data "msg" in
      emitError payload >>
      emit (Kill 1)
    else ret tt.

(** [proc.emit('data', v)]: the call is recorded, then the listener
    registered by [rcd] runs if it has not been removed. *)
Definition emitData (v : json) : JS Daemon unit :=
  emit (Data v) >>
  let* d := get in
  if listening d then emitReady v else ret tt.

Section Supervisor.
(** [JSON.parse]: the parsed value, or [None] when it throws. *)
Variable JSON_parse : string -> option json.
(** [new Date().toJSON()] at the [n]-th reading of the clock. *)
Variable Date_toJSON : nat -> string.

Definition now : JS Daemon string :=
  fun d => (mkDaemon (listening d) (error_listener d) (emitted d)
                     (stdout_backlog d) (stderr_backlog d) (S (clock d)),
            Normal (Date_toJSON (clock d))).

Definition synthetic (time text : string) : json :=
  JObj [("level", JStr "error"); ("source", JStr EmptyString);
        ("time", JStr time); ("msg", JStr text)].

Definition rcdJsonParser (text : string) : JS Daemon json :=
  match JSON_parse text with
  | Some v => ret v
  | None => let* time := now in ret (synthetic time text)
  end.

Definition jsonLogEmmit (text : string) : JS Daemon unit :=
  let* v := rcdJsonParser text in emitData v.

(** One event of either output stream, handled by that stream's framer
    with [jsonLogEmmit] as its callback. *)
Definition deliver (i : StreamId) (ev : StreamEvent) : JS Daemon unit :=
  fun d =>
    match ev with
    | Chunk data =>
        let '(d', (backlog, c)) := onData jsonLogEmmit (backlog_of d i) data d in
        (set_backlog i backlog d', c)
    | End => onEnd jsonLogEmmit (backlog_of d i) d
    end.

(** The events are handled in arrival order; an exception that escapes a
    listener ends the run. *)
Fixpoint deliverAll (evs : list (StreamId * StreamEvent)) : JS Daemon unit :=
  match evs with
  | [] => ret tt
  | (i, ev) :: rest => deliver i ev >> deliverAll rest
  end.

(** The published values handed to [proc.emit('data', _)] one by one. *)
Fixpoint publishAll (vs : list json) : JS Daemon unit :=
  match vs with
  | [] => ret tt
  | v :: rest => emitData v >> publishAll rest
  end.

End Supervisor.

(** The handle as [rcd] returns it: [emitReady] listens to ['data'], and
    nothing listens to ['error']. *)
Definition started : Daemon :=
  mkDaemon true false [] EmptyString EmptyString 0.

(** [proc.on('error', listener)] by the caller. *)
Definition on_error (d : Daemon) : Daemon :=
  mkDaemon (listening d) true (emitted d)
           (stdout_backlog d) (stderr_backlog d) (clock d).

(** The handle of [rcd] once its caller listens to ['error']. *)
Definition attended : Daemon := on_error started.

(** *** Log messages among the published values *)

(** The [source] and [msg] of a value that has both as strings, as a
    [LogMessage] does. *)
Definition logFields (v : json) : option (string * string) :=
  match v with
  | JObj props =>
      match lookupProp "source" props, lookupProp "msg" props with
      | Some (JStr source), Some (JStr msg) => Some (source, msg)
      | _, _ => None
      end
  | _ => None
  end.

(** The ready pattern and the failure pattern, on such a value. *)
Definition isReadyLine (v : json) : bool :=
  match logFields v with
  | Some (source, msg) =>
      startsWith source ready_source_marker && startsWith msg ready_msg_marker
  | None => false
  end.

Definition isFailureLine (v : json) : bool :=
  match logFields v with
  | Some (_, msg) => negb (isReadyLine v) && includes msg failure_marker
  | None => false
  end.

(** The payloads of the ready signals among the calls made. *)
Definition readyPayloads (sgs : list Signal) : list json :=
  omap (fun sg => match sg with Ready v => Some v | _ => None end) sgs.

(** The first published value that decides a run: a ready line, or a
    failure line. *)
Definition decisive (v : json) : bool := isReadyLine v || isFailureLine v.

Definition with_emitted (d : Daemon) (sgs : list Signal) : Daemon :=
  mkDaemon (listening d) (error_listener d) (emitted d ++ sgs)
           (stdout_backlog d) (stderr_backlog d) (clock d).

Definition stop_listening (d : Daemon) : Daemon :=
  mkDaemon false (error_listener d) (emitted d)
           (stdout_backlog d) (stderr_backlog d) (clock d).

(** The values on which every read and call of [emitReady] is defined: an
    object whose [source] is a string and whose [msg] is a string, or an
    array when the source is not the remote-control server's. *)
Definition handlerSafe (v : json) : bool :=
  match v with
  | JObj props =>
      match lookupProp "source" props with
      | Some (JStr source) =>
          match lookupProp "msg" props with
          | Some (JStr _) => true
          | Some (JArr _) => negb (startsWith source ready_source_marker)
          | _ => false
          end
      | _ => false
      end
  | _ => false
  end.

Definition shaped (v : json) : Prop := is_Some (logFields v).

Definition msgOf (v : json) : string :=
  match logFields v with Some (_, msg) => msg | None => EmptyString end.

Definition tick (d : Daemon) : Daemon :=
  mkDaemon (listening d) (error_listener d) (emitted d)
           (stdout_backlog d) (stderr_backlog d) (S (clock d)).

(** Two log messages of the daemon. *)
Definition serving_line : json :=
  JObj [("level", JStr "info");
        ("msg", JStr "Serving remote control on http://127.0.0.1:5572/");
        ("source", JStr "rcserver/rcserver.go");
        ("time", JStr "2022-11-02T08:07:00Z")].

Definition failure_notice : json :=
  JObj [("level", JStr "error");
        ("msg", JStr "Failed to start remote control: address already in use");
        ("source", JStr "rcd/rcd.go:51");
        ("time", JStr "2022-11-02T08:07:00Z")].

(** ** The driver ([rcloneDriver]) *)

Definition catch {S A} (m : JS S A) (handler : exn -> JS S A) : JS S A :=
  fun s => match m s with
           | (s', Throw e) => handler e s'
           | r => r
           end.

(** What [spawnSync] hands back: [output] is [null] when the process could
    not be run, otherwise the array [[null, stdout, stderr]] with the
    captured buffers, here already decoded to text. *)
Record SpawnSyncReturns : Type := mkReturns {
  output : option (list (option string));
}.

Record SpawnOptions : Type := mkOptions {
  detached : bool;
  shell : bool;
  windowsHide : bool;
  stdio : string;
  spawn_env : gmap string string;
}.

(** The host as the driver acts on it: the synchronous subprocess calls and
    the processes started, oldest first. *)
Record Host : Type := mkHost {
  sync_calls : list (string * list string * option (gmap string string));
  spawned : list (string * list string * SpawnOptions);
}.

Definition fresh_host : Host := mkHost [] [].

(** [Array.prototype.toString]: the elements joined by commas, [null]
    printing as nothing. *)
Definition arrayToString (xs : list (option string)) : string :=
  join "," (map (default EmptyString) xs).

(** [x || ''] on an array element that may be missing. *)
Definition orEmpty (x : option string) : string :=
  match x with
  | Some s => if truthy s then s else EmptyString
  | None => EmptyString
  end.

(** The entries of the spawn environment of [rcd] that precede the spread,
    inserted as the object literal is evaluated. *)
Definition rcdBaseline (configPath : string) : gmap string string :=
  <["RCLONE_LOG_LEVEL" := "NOTICE"]>
  (<["RCLONE_LOG_FORMAT" := EmptyString]>
  (<["RCLONE_RC_NO_AUTH" := "false"]>
  (<["RCLONE_RC_WEB_GUI" := "false"]>
  (<["RCLONE_RC_SERVER_READ_TIMEOUT" := "8760h0m0s"]>
  (<["RCLONE_RC_SERVER_WRITE_TIMEOUT" := "8760h0m0s"]>
  (<["RCLONE_PASSWORD" := "false"]>
  (<["RCLONE_CONFIG" := configPath]>
  (<["RCLONE_AUTO_CONFIRM" := "false"]> ∅)))))))).

(** The whole environment: the spread of [env || {}] overrides the entries
    before it, and the last entry overrides both. *)
Definition rcdEnv (configPath : string) (env : option (gmap string string))
  : gmap string string :=
  <["RCLONE_USE_JSON_LOG" := "true"]> (default ∅ env ∪ rcdBaseline configPath).

Section Driver.
Variable binary : string.
Variable configFile : option string.
(** [os.devNull] *)
Variable devNull : string.
(** The outcome of running a command synchronously on this host. *)
Variable run_sync :
  string -> list string -> option (gmap string string) ->
  completion SpawnSyncReturns.
(** [semver.clean]: the canonical version, or [None] for [null]. *)
Variable semver_clean : string -> option string.

Definition spawnSync (cmd : string) (args : list string)
           (env : option (gmap string string)) : JS Host SpawnSyncReturns :=
  fun h => (mkHost (sync_calls h ++ [(cmd, args, env)]) (spawned h),
            run_sync cmd args env).

Definition spawn (cmd : string) (args : list string) (opts : SpawnOptions)
  : JS Host unit :=
  modify (fun h => mkHost (sync_calls h) (spawned h ++ [(cmd, args, opts)])).

(** [getVersion]: the result is [None] when [null] is returned. *)
Definition getVersion : JS Host (option string) :=
  let* returned :=
    catch
      (let* result := spawnSync binary ["version"]
                        (Some {["RCLONE_CONFIG" := devNull]}) in
       match output result with
       | Some out =>
           match head (splitLines (trim (arrayToString out))) with
           | Some line =>
               match last (splitSpaces line) with
               | Some ver => ret (Some (semver_clean ver))
               | None => throw TypeError
               end
           | None => throw TypeError
           end
       | None => ret None
       end)
      (fun _ => ret None) in
  match returned with
  | Some version => ret version
  | None => throw (Error "Cannot detect Rclone version.")
  end.

Definition getDefaultConfigFile : JS Host string :=
  let* returned :=
    catch
      (let* result := spawnSync binary ["config"; "file"] None in
       match output result with
       | Some out =>
           ret (Some (trim (orEmpty
                 (splitChar LF (trim (arrayToString out)) !! 1%nat))))
       | None => ret None
       end)
      (fun _ => ret None) in
  match returned with
  | Some path => ret path
  | None => throw (Error "Cannot detect default Rclone file.")
  end.

Definition getConfigFile : JS Host string :=
  match configFile with
  | Some path => if truthy path then ret path else getDefaultConfigFile
  | None => getDefaultConfigFile
  end.

(** [rcd]: the configuration file is resolved while the options are
    built, then the daemon is started and its handle returned. *)
Definition rcd (env : option (gmap string string)) : JS Host Daemon :=
  let* configPath := getConfigFile in
  spawn binary ["rcd"]
        (mkOptions false false true "pipe" (rcdEnv configPath env)) >>
  ret started.

End Driver.

Definition logged (h : Host) (cmd : string) (args : list string)
           (env : option (gmap string string)) : Host :=
  mkHost (sync_calls h ++ [(cmd, args, env)]) (spawned h).

(** The token [getVersion] hands to [semver.clean]. *)
Definition versionToken (out : list (option string)) : string :=
  default EmptyString
    (last (splitSpaces
             (default EmptyString
                (head (splitLines (trim (arrayToString out))))))).

(** A host where every synchronous call hands back the given output array. *)
Definition printing (out : list (option string))
  : string -> list string -> option (gmap string string) ->
    completion SpawnSyncReturns :=
  fun _ _ _ => Normal (mkReturns (Some out)).

(** ** The remote-control client ([remoteCommand]) *)

(** [Buffer.from(s)]: the UTF-8 bytes of a string of code units below 256. *)
Fixpoint utf8 (s : string) : list Z :=
  match s with
  | EmptyString => []
  | String c s' =>
      let u := Z.of_nat (nat_of_ascii c) in
      if u <? 128 then u :: utf8 s'
      else Z.lor 192 (Z.shiftr u 6) :: Z.lor 128 (Z.land u 63) :: utf8 s'
  end.

Definition base64_alphabet : string :=
  "ABCDEFGHIJKLMNOPQRSTUVWXYZabcdefghijklmnopqrstuvwxyz0123456789+/".

Definition base64_digit (n : Z) : string :=
  String.substring (Z.to_nat (Z.land n 63)) 1 base64_alphabet.

(** [buf.toString('base64')] *)
Fixpoint base64 (bytes : list Z) : string :=
  match bytes with
  | [] => EmptyString
  | [a] =>
      let n := Z.shiftl a 16 in
      base64_digit (Z.shiftr n 18) +:+ base64_digit (Z.shiftr n 12) +:+ "=="
  | [a; b] =>
      let n := Z.lor (Z.shiftl a 16) (Z.shiftl b 8) in
      base64_digit (Z.shiftr n 18) +:+ base64_digit (Z.shiftr n 12) +:+
      base64_digit (Z.shiftr n 6) +:+ "="
  | a :: b :: c :: rest =>
      let n := Z.lor (Z.lor (Z.shiftl a 16) (Z.shiftl b 8)) c in
      base64_digit (Z.shiftr n 18) +:+ base64_digit (Z.shiftr n 12) +:+
      base64_digit (Z.shiftr n 6) +:+ base64_digit n +:+ base64 rest
  end.

Record RemoteCommandServerInfo : Type := mkServer {
  auth : string;
  uri : string;
}.

(** The arguments of one [fetch] call; a header value [None] is [null]. *)
Record FetchCall : Type := mkFetch {
  url : string;
  method : string;
  headers : list (string * option string);
  body : string;
}.

(** The value a request carries under a header name, if it has the
    header at all. *)
Definition header (name : string) (request : FetchCall)
  : option (option string) :=
  snd <$> List.find (fun kv => String.eqb (fst kv) name) (headers request).

(** [typeof v === 'object'] and not [null]: what the parameter type
    [object] admits. *)
Definition isObject (v : json) : bool :=
  match v with JArr _ | JObj _ => true | _ => false end.

(** JavaScript truthiness of a parsed value. *)
Definition truthyValue (v : json) : bool :=
  match v with
  | JNull => false
  | JBool b => b
  | JNum m _ => negb (m =? 0)
  | JStr s => truthy s
  | JArr _ | JObj _ => true
  end.

Section RemoteCommand.
(** [JSON.stringify] *)
Variable JSON_stringify : json -> string.

(** [remoteCommand]: the state is the list of requests handed to
    [fetch]; the request is issued while the result object is built. *)
Definition remoteCommand (server : RemoteCommandServerInfo)
           (endpoint : string) (payload : option json)
  : JS (list FetchCall) unit :=
  let uri := uri server +:+ endpoint in
  let authHeader :=
    if truthy (auth server)
    then Some ("Basic " +:+ base64 (utf8 (auth server)))
    else None in
  let sent :=
    match payload with
    | Some v => if truthyValue v then v else JObj []
    | None => JObj []
    end in
  modify (fun calls =>
    calls ++ [mkFetch uri "POST"
                      [("Authorization", authHeader);
                       ("Content-Type", Some "application/json")]
                      (JSON_stringify sent)]).

End RemoteCommand.

(** ** Reference instances of the platform functions

    The driver's definitions above take [JSON.parse], [JSON.stringify] and
    [semver.clean] as parameters.  The instances below follow the JSON
    grammar and the strict version grammar of the [semver] package on the
    modelled alphabet; they serve to run the driver on concrete inputs. *)

Module Ref.

Definition isDigit (c : ascii) : bool :=
  let n := nat_of_ascii c in (48 <=? n)%nat && (n <=? 57)%nat.

Definition isAlpha (c : ascii) : bool :=
  let n := nat_of_ascii c in
  ((65 <=? n)%nat && (n <=? 90)%nat) || ((97 <=? n)%nat && (n <=? 122)%nat).

Fixpoint all (p : ascii -> bool) (s : string) : bool :=
  match s with
  | EmptyString => true
  | String c s' => p c && all p s'
  end.

Fixpoint digitsValue (s : string) (acc : Z) : Z :=
  match s with
  | EmptyString => acc
  | String c s' =>
      digitsValue s' (10 * acc + (Z.of_nat (nat_of_ascii c) - 48))
  end.

(** Reads the longest run of characters satisfying [p]. *)
Fixpoint span (p : ascii -> bool) (s : string) : string * string :=
  match s with
  | String c s' =>
      if p c then let (run, rest) := span p s' in (String c run, rest)
      else (EmptyString, s)
  | EmptyString => (EmptyString, EmptyString)
  end.

(** *** JSON text *)

Definition isJsonSpace (c : ascii) : bool :=
  let n := nat_of_ascii c in
  (n =? 32)%nat || (n =? 9)%nat || (n =? 10)%nat || (n =? 13)%nat.

Definition skipSpace (s : string) : string := snd (span isJsonSpace s).

Definition DQUOTE : ascii := "034"%char.

Definition hexValue (c : ascii) : option Z :=
  let n := Z.of_nat (nat_of_ascii c) in
  if (48 <=? n) && (n <=? 57) then Some (n - 48)
  else if (65 <=? n) && (n <=? 70) then Some (n - 55)
  else if (97 <=? n) && (n <=? 102) then Some (n - 87)
  else None.

(** The characters of a string literal after its opening quote.  An
    escape [\uXXXX] denoting a code unit from 256 on lies outside the
    modelled alphabet and is not accepted. *)
Fixpoint parseChars (s acc : string) : option (string * string) :=
  match s with
  | EmptyString => None
  | String c s' =>
      if Ascii.eqb c DQUOTE then Some (acc, s')
      else if (nat_of_ascii c <? 32)%nat then None
      else if Ascii.eqb c "\" then
        match s' with
        | String e s'' =>
            let simple (x : ascii) :=
              parseChars s'' (acc +:+ String x EmptyString) in
            if Ascii.eqb e DQUOTE then simple DQUOTE
            else if Ascii.eqb e "\" then simple "\"%char
            else if Ascii.eqb e "/" then simple "/"%char
            else if Ascii.eqb e "b" then simple "008"%char
            else if Ascii.eqb e "f" then simple "012"%char
            else if Ascii.eqb e "n" then simple "010"%char
            else if Ascii.eqb e "r" then simple "013"%char
            else if Ascii.eqb e "t" then simple "009"%char
            else if Ascii.eqb e "u" then
              match s'' with
              | String h1 (String h2 (String h3 (String h4 s3))) =>
                  match hexValue h1, hexValue h2, hexValue h3, hexValue h4 with
                  | Some 0, Some 0, Some x, Some y =>
                      parseChars s3
                        (acc +:+ String (ascii_of_nat (Z.to_nat (16 * x + y)))
                                        EmptyString)
                  | _, _, _, _ => None
                  end
              | _ => None
              end
            else None
        | EmptyString => None
        end
      else parseChars s' (acc +:+ String c EmptyString)
  end.

(** A number literal: [-? int frac? exp?]. *)
Definition parseNumber (s : string) : option (json * string) :=
  let (neg, s1) :=
    match s with
    | String "-" r => (true, r)
    | _ => (false, s)
    end in
  let (int, s2) := span isDigit s1 in
  match int with
  | EmptyString => None
  | String d more =>
      if Ascii.eqb d "0" && truthy more then None
      else
        let fracPart :=
          match s2 with
          | String "." r =>
              let (frac, s3) := span isDigit r in
              if truthy frac then Some (frac, s3) else None
          | _ => Some (EmptyString, s2)
          end in
        match fracPart with
        | None => None
        | Some (frac, s3) =>
            let expPart :=
              match s3 with
              | String c r =>
                  if Ascii.eqb c "e" || Ascii.eqb c "E" then
                    let (eneg, r1) :=
                      match r with
                      | String "-" r' => (true, r')
                      | String "+" r' => (false, r')
                      | _ => (false, r)
                      end in
                    let (ex, s4) := span isDigit r1 in
                    if truthy ex
                    then Some ((if eneg then -1 else 1) * digitsValue ex 0, s4)
                    else None
                  else Some (0, s3)
              | EmptyString => Some (0, s3)
              end in
            match expPart with
            | None => None
            | Some (ex, s4) =>
                let m := digitsValue (int +:+ frac) 0 in
                Some (JNum (if neg then - m else m) (ex - len frac), s4)
            end
        end
  end.

(** A repeated name keeps its place and takes the later value. *)
Fixpoint setProp (k : string) (v : json) (props : list (string * json))
  : list (string * json) :=
  match props with
  | [] => [(k, v)]
  | (k', v') :: rest =>
      if String.eqb k' k then (k, v) :: rest else (k', v') :: setProp k v rest
  end.

Inductive Expect : Type :=
| AValue
| AnElement (acc : list json)
| AMember (acc : list (string * json)).

Definition literal (word : string) (v : json) (s : string)
  : option (json * string) :=
  if String.prefix word s
  then Some (v, slice1 s (len word)) else None.

Fixpoint parseAt (fuel : nat) (what : Expect) (s : string)
  : option (json * string) :=
  match fuel with
  | O => None
  | S fuel =>
      match what with
      | AValue =>
          match skipSpace s with
          | EmptyString => None
          | String c r as t =>
              if Ascii.eqb c "{" then
                match skipSpace r with
                | String "}" r' => Some (JObj [], r')
                | _ => parseAt fuel (AMember []) r
                end
              else if Ascii.eqb c "[" then
                match skipSpace r with
                | String "]" r' => Some (JArr [], r')
                | _ => parseAt fuel (AnElement []) r
                end
              else if Ascii.eqb c DQUOTE then
                match parseChars r EmptyString with
                | Some (str, r') => Some (JStr str, r')
                | None => None
                end
              else if Ascii.eqb c "t" then literal "true" (JBool true) t
              else if Ascii.eqb c "f" then literal "false" (JBool false) t
              else if Ascii.eqb c "n" then literal "null" JNull t
              else parseNumber t
          end
      | AnElement acc =>
          match parseAt fuel AValue s with
          | Some (v, r) =>
              match skipSpace r with
              | String "," r' => parseAt fuel (AnElement (acc ++ [v])) r'
              | String "]" r' => Some (JArr (acc ++ [v]), r')
              | _ => None
              end
          | None => None
          end
      | AMember acc =>
          match skipSpace s with
          | EmptyString => None
          | String c r =>
              if Ascii.eqb c DQUOTE then
                match parseChars r EmptyString with
                | Some (k, r1) =>
                    match skipSpace r1 with
                    | String ":" r2 =>
                        match parseAt fuel AValue r2 with
                        | Some (v, r3) =>
                            match skipSpace r3 with
                            | String "," r4 =>
                                parseAt fuel (AMember (setProp k v acc)) r4
                            | String "}" r4 =>
                                Some (JObj (setProp k v acc), r4)
                            | _ => None
                            end
                        | None => None
                        end
                    | _ => None
                    end
                | None => None
                end
              else None
          end
      end
  end.

(** [JSON.parse]: one value, surrounded by nothing but white space. *)
Definition JSON_parse (text : string) : option json :=
  match parseAt (2 * String.length text + 2) AValue text with
  | Some (v, rest) =>
      match skipSpace rest with
      | EmptyString => Some v
      | _ => None
      end
  | None => None
  end.

(** *** JSON serialisation *)

Definition showZ (n : Z) : string :=
  DecimalString.NilZero.string_of_int (Z.to_int n).

Definition hexDigit (n : Z) : string :=
  String.substring (Z.to_nat n) 1 "0123456789abcdef".

Definition escapeChar (c : ascii) : string :=
  let n := Z.of_nat (nat_of_ascii c) in
  if Ascii.eqb c DQUOTE then String "\" (String DQUOTE EmptyString)
  else if Ascii.eqb c "\" then "\\"
  else if n =? 8 then "\b"
  else if n =? 9 then "\t"
  else if n =? 10 then "\n"
  else if n =? 12 then "\f"
  else if n =? 13 then "\r"
  else if n <? 32 then "\u00" +:+ hexDigit (n / 16) +:+ hexDigit (n mod 16)
  else String c EmptyString.

Fixpoint escape (s : string) : string :=
  match s with
  | EmptyString => EmptyString
  | String c s' => escapeChar c +:+ escape s'
  end.

Definition quote (s : string) : string :=
  String DQUOTE (escape s +:+ String DQUOTE EmptyString).

(** [JSON.stringify] without indentation; a number is printed as its
    mantissa, followed by its exponent when that is not zero. *)
Fixpoint JSON_stringify (v : json) : string :=
  match v with
  | JNull => "null"
  | JBool true => "true"
  | JBool false => "false"
  | JNum m e => if e =? 0 then showZ m else showZ m +:+ "e" +:+ showZ e
  | JStr s => quote s
  | JArr items => "[" +:+ join "," (map JSON_stringify items) +:+ "]"
  | JObj props =>
      "{" +:+
      join "," (map (fun kv => quote (fst kv) +:+ ":" +:+ JSON_stringify (snd kv))
                    props) +:+
      "}"
  end.

(** Writes a text with ['] standing for the double quote. *)
Fixpoint dq (s : string) : string :=
  match s with
  | EmptyString => EmptyString
  | String c s' => String (if Ascii.eqb c "'" then DQUOTE else c) (dq s')
  end.

(** *** Versions *)

Definition MAX_LENGTH : Z := 256.
Definition MAX_SAFE_INTEGER : Z := 9007199254740991.

(** Cuts [s] at the first occurrence of [c]. *)
Fixpoint cut (c : ascii) (s : string) : string * option string :=
  match s with
  | EmptyString => (EmptyString, None)
  | String a s' =>
      if Ascii.eqb a c then (EmptyString, Some s')
      else let (l, r) := cut c s' in (String a l, r)
  end.

(** [0|[1-9]\d*], within the safe integers. *)
Definition numericIdentifier (s : string) : bool :=
  truthy s && all isDigit s &&
  match s with
  | String "0" (String _ _) => false
  | _ => true
  end &&
  (digitsValue s 0 <=? MAX_SAFE_INTEGER).

Definition isIdentChar (c : ascii) : bool :=
  isDigit c || isAlpha c || Ascii.eqb c "-".

(** A pre-release identifier: numeric without leading zero, or
    alphanumeric with at least one letter or hyphen. *)
Definition prereleaseIdentifier (s : string) : bool :=
  truthy s && all isIdentChar s &&
  (negb (all isDigit s) ||
   match s with
   | String "0" (String _ _) => false
   | _ => true
   end).

Definition buildIdentifier (s : string) : bool :=
  truthy s && all isIdentChar s.

Definition isEqOrV (c : ascii) : bool := Ascii.eqb c "=" || Ascii.eqb c "v".

(** The version with an optional leading [v], by the strict grammar;
    the result is the canonical text, which drops the build part. *)
Definition parseVersion (s : string) : option string :=
  if MAX_LENGTH <? len s then None
  else
    let t := trim s in
    let t := match t with String "v" r => r | _ => t end in
    let (main, build) := cut "+" t in
    let (core, pre) := cut "-" main in
    let buildOk :=
      match build with
      | Some b => forallb buildIdentifier (splitChar "." b)
      | None => true
      end in
    let preOk :=
      match pre with
      | Some p => forallb prereleaseIdentifier (splitChar "." p)
      | None => true
      end in
    match splitChar "." core with
    | [major; minor; patch] =>
        if numericIdentifier major && numericIdentifier minor &&
           numericIdentifier patch && preOk && buildOk
        then Some (match pre with
                   | Some p => core +:+ "-" +:+ p
                   | None => core
                   end)
        else None
    | _ => None
    end.

(** [semver.clean] *)
Definition semver_clean (version : string) : option string :=
  parseVersion (snd (span isEqOrV (trim version))).

End Ref.
(** ** Further parts of the driver and of the application *)

(** *** Lines handed over one after another *)

Section Handing.
Context {St : Type}.
Variable callback : string -> JS St unit.

(** The callback applied to each line in turn, up to the first that
    throws. *)
Fixpoint handLines (ls : list string) : JS St unit :=
  match ls with
  | [] => ret tt
  | l :: rest => callback l >> handLines rest
  end.

End Handing.

(** *** What the listener makes of a value *)

(** The four ways [emitReady] can go on a value: a read or call is not
    defined, the ready branch is taken, the failure branch is taken, or
    neither. *)
Inductive Verdict : Type :=
| Unsafe
| Fires (address : json)
| Fails (payload : option json)
| Idle.

Definition verdict (v : json) : Verdict :=
  match v with
  | JObj props =>
      match lookupProp "source" props with
      | Some (JStr source) =>
          match lookupProp "msg" props with
          | Some (JStr msg) =>
              if startsWith source ready_source_marker &&
                 startsWith msg ready_msg_marker
              then Fires (JStr (slice1 msg 26))
              else if includes msg failure_marker
                   then Fails (Some (JStr msg))
                   else Idle
          | Some (JArr items) =>
              if startsWith source ready_source_marker then Unsafe
              else if existsb (isStr failure_marker) items
                   then Fails (Some (JArr items))
                   else Idle
          | _ => Unsafe
          end
      | _ => Unsafe
      end
  | _ => Unsafe
  end.

(** *** Views of the calls made on a daemon handle *)

(** The values published through ['data']. *)
Definition dataOf (sgs : list Signal) : list json :=
  omap (fun sg => match sg with Data v => Some v | _ => None end) sgs.

Definition isData (sg : Signal) : bool :=
  match sg with Data _ => true | _ => false end.

Definition isKill (sg : Signal) : bool :=
  match sg with Kill _ => true | _ => false end.

Definition isFailure (sg : Signal) : bool :=
  match sg with Failure _ => true | _ => false end.

(** A sequence of calls without ready signal, in which every failure signal
    is followed at once by [kill(1)] and no [kill] stands alone. *)
Fixpoint waitingTrace (sgs : list Signal) : bool :=
  match sgs with
  | [] => true
  | Data _ :: rest => waitingTrace rest
  | Failure _ :: Kill 1 :: rest => waitingTrace rest
  | _ => false
  end.

(** The same, with at most one ready signal, after which only ['data']
    emissions occur. *)
Fixpoint orderlyTrace (sgs : list Signal) : bool :=
  match sgs with
  | [] => true
  | Data _ :: rest => orderlyTrace rest
  | Failure _ :: Kill 1 :: rest => orderlyTrace rest
  | Ready _ :: rest => forallb isData rest
  | _ => false
  end.

Section Published.
Variable JSON_parse : string -> option json.
Variable Date_toJSON : nat -> string.

(** The values [rcdJsonParser] makes of the lines, the clock standing at
    its [c]-th reading before the first. *)
Fixpoint parsedFrom (c : nat) (lines : list string) : list json :=
  match lines with
  | [] => []
  | l :: rest =>
      match JSON_parse l with
      | Some v => v :: parsedFrom c rest
      | None => synthetic (Date_toJSON c) l :: parsedFrom (S c) rest
      end
  end.

(** What the listener makes of a line; the reading of the clock plays no
    part in it. *)
Definition lineVerdict (l : string) : Verdict :=
  match JSON_parse l with
  | Some v => verdict v
  | None => verdict (synthetic EmptyString l)
  end.

(** A line on which the listener returns: its value can be read, and it
    is no failure line unless somebody listens to ['error']. *)
Definition quietLine (attends : bool) (l : string) : bool :=
  match lineVerdict l with
  | Unsafe => false
  | Fails _ => attends
  | _ => true
  end.

End Published.


(** *** The state of a daemon handle between events *)

(** The calls made so far hold no ready signal while the listener is
    registered, and exactly one, followed by ['data'] emissions only, once
    it is gone. *)
Definition settled (d : Daemon) : Prop :=
  exists waiting,
    readyPayloads waiting = [] /\
    ((listening d = true /\ emitted d = waiting) \/
     (listening d = false /\
      exists address values,
        emitted d = waiting ++ Ready address :: map Data values)).

(** The same on a handle whose caller listens to ['error'], where moreover
    every failure signal is followed at once by [kill(1)]. *)
Definition settledAttended (d : Daemon) : Prop :=
  error_listener d = true /\
  exists waiting,
    waitingTrace waiting = true /\
    ((listening d = true /\ emitted d = waiting) \/
     (listening d = false /\
      exists address values,
        emitted d = waiting ++ Ready address :: map Data values)).

(** A handle nobody listens to for ['error'], on which [kill] has not been
    called. *)
Definition unkilled (d : Daemon) : Prop :=
  error_listener d = false /\ List.filter isKill (emitted d) = [].

(** *** Locating the binary ([getRcloneBinary], [rcloneDriver]) *)

Section Resolver.
(** [process.platform] *)
Variable platform : string.
(** [fs.existsSync] *)
Variable existsSync : string -> bool.
(** [fs.lstatSync(path).isDirectory()]; [lstatSync] may throw. *)
Variable lstat_isDirectory : string -> completion bool.
(** [path.join] of two segments *)
Variable path_join : string -> string -> string.

Definition platformBinaryName : string :=
  if String.eqb platform "win32" then "rclone.exe" else "rclone".

Definition getRcloneBinary (path : string) : completion string :=
  if negb (existsSync path)
  then Throw (Error ("Path: " +:+ path +:+ " does not exist"))
  else match lstat_isDirectory path with
       | Throw e => Throw e
       | Normal true =>
           Normal (path_join path
                     (if String.eqb platform "win32" then "rclone.exe"
                      else "rclone"))
       | Normal false => Normal path
       end.

(** What the closures of one driver share. *)
Record Driver : Type := mkDriver {
  driver_binary : string;
  driver_configFile : option string;
}.

(** [rcloneDriver({ binaryPath, configFile })] *)
Definition rcloneDriver (binaryPath configFile : option string)
  : completion Driver :=
  let resolved :=
    match binaryPath with
    | Some path =>
        if truthy path then getRcloneBinary path else Normal platformBinaryName
    | None => Normal platformBinaryName
    end in
  match resolved with
  | Normal binary => Normal (mkDriver binary configFile)
  | Throw e => Throw e
  end.

End Resolver.

(** *** The driver's other operations *)

Section DriverOperations.
Variable devNull : string.
Variable run_sync :
  string -> list string -> option (gmap string string) ->
  completion SpawnSyncReturns.
Variable semver_clean : string -> option string.
(** [semver.gte]; its first argument is [None] for [null]. *)
Variable semver_gte : option string -> string -> completion bool.

Definition getBinary (d : Driver) : string := driver_binary d.

Definition getCommand (d : Driver) (args : list string)
  : string * list string :=
  (driver_binary d, args).

(** [command(args, spawnOptions)]; of the options the environment is
    kept, as [spawnSync] records it. *)
Definition command (d : Driver) (args : list string)
           (env : option (gmap string string)) : JS Host SpawnSyncReturns :=
  let (cmd, args') := getCommand d args in
  spawnSync run_sync cmd args' env.

(** [commandAsync(args, spawnOptions)] *)
Definition commandAsync (d : Driver) (args : list string)
           (opts : SpawnOptions) : JS Host unit :=
  let (cmd, args') := getCommand d args in
  spawn cmd args' opts.

Definition versionGte (d : Driver) (minVersion : string) : JS Host bool :=
  let* version := getVersion (driver_binary d) devNull run_sync semver_clean in
  fun h => (h, semver_gte version minVersion).

(** One call on a driver. *)
Inductive Operation : Type :=
| DoGetVersion
| DoVersionGte (minVersion : string)
| DoGetConfigFile
| DoGetDefaultConfigFile
| DoCommand (args : list string) (env : option (gmap string string))
| DoCommandAsync (args : list string) (opts : SpawnOptions)
| DoRcd (env : option (gmap string string)).

(** The host after the call, whether it returned or threw. *)
Definition perform (d : Driver) (op : Operation) (h : Host) : Host :=
  match op with
  | DoGetVersion =>
      fst (getVersion (driver_binary d) devNull run_sync semver_clean h)
  | DoVersionGte minVersion => fst (versionGte d minVersion h)
  | DoGetConfigFile =>
      fst (getConfigFile (driver_binary d) (driver_configFile d) run_sync h)
  | DoGetDefaultConfigFile =>
      fst (getDefaultConfigFile (driver_binary d) run_sync h)
  | DoCommand args env => fst (command d args env h)
  | DoCommandAsync args opts => fst (commandAsync d args opts h)
  | DoRcd env =>
      fst (rcd (driver_binary d) (driver_configFile d) run_sync env h)
  end.

Definition performAll (d : Driver) (ops : list Operation) (h : Host) : Host :=
  fold_left (fun h op => perform d op h) ops h.

End DriverOperations.

(** The programs named by the calls recorded on a host. *)
Definition commandsOf (h : Host) : list string :=
  map (fun call => fst (fst call)) (sync_calls h) ++
  map (fun call => fst (fst call)) (spawned h).

(** *** The command line of a subcommand ([getSubcommand], package.js) *)

(** [isPacked] and [process.argv] are taken as given. *)
Definition getSubcommand (isPacked : bool) (argv : list string)
           (subcommand : string) : string :=
  join " " (firstn (if isPacked then 1 else 2) argv ++ [subcommand]).

(** *** The tabs of the bookmark window ([createBookmarkWindow]) *)

(** [a.name] in a condition, for a provider option [a]. *)
Definition optionFlag (name : string) (a : list (string * json)) : bool :=
  match lookupProp name a with
  | Some v => truthyValue v
  | None => false
  end.

(** The options listed under [General] and under [Advanced]. *)
Definition generalOptions (options : list (list (string * json)))
  : list (list (string * json)) :=
  List.filter (fun a => negb (optionFlag "Advanced" a) &&
                        negb (optionFlag "Hide" a)) options.

Definition advancedOptions (options : list (list (string * json)))
  : list (list (string * json)) :=
  List.filter (fun a => optionFlag "Advanced" a &&
                        negb (optionFlag "Hide" a)) options.

(** * Properties *)

(** ** Strings *)

Lemma len_nonneg s : 0 <= len s.
Proof. unfold len. lia. Qed.

Lemma str_app_cons c s t : String c s +:+ t = String c (s +:+ t).
Proof. reflexivity. Qed.

Lemma str_app_nil_l s : EmptyString +:+ s = s.
Proof. reflexivity. Qed.

Lemma len_app s t : len (s +:+ t) = len s + len t.
Proof.
  unfold len. induction s as [|c s IH]; [rewrite str_app_nil_l; simpl; lia|].
  rewrite str_app_cons. simpl String.length. lia.
Qed.

Lemma str_app_nil_r s : s +:+ EmptyString = s.
Proof. induction s; rewrite ?str_app_cons, ?str_app_nil_l; congruence. Qed.

Lemma str_app_assoc s t u : (s +:+ t) +:+ u = s +:+ t +:+ u.
Proof. induction s; rewrite ?str_app_cons, ?str_app_nil_l; congruence. Qed.

Lemma occurs_app c s t : occurs c (s +:+ t) = occurs c s || occurs c t.
Proof.
  induction s as [|a s IH]; [reflexivity|].
  rewrite str_app_cons. simpl. rewrite IH. apply orb_assoc.
Qed.

Lemma prefix_NL s :
  String.prefix NL s =
  match s with String c _ => Ascii.eqb c LF | EmptyString => false end.
Proof.
  destruct s as [|c s]; [reflexivity|].
  unfold NL. cbn [String.prefix].
  destruct (ascii_dec LF c) as [<-|Hne].
  - rewrite Ascii.eqb_refl. destruct s; reflexivity.
  - symmetry. apply Ascii.eqb_neq. congruence.
Qed.

Lemma substring_all s : String.substring 0 (String.length s) s = s.
Proof. induction s; simpl; congruence. Qed.

Lemma substring_app_l a r :
  String.substring 0 (String.length a) (a +:+ r) = a.
Proof.
  induction a as [|c a IH]; rewrite ?str_app_cons, ?str_app_nil_l; simpl.
  - destruct r; reflexivity.
  - congruence.
Qed.

Lemma substring_app_r a r m :
  String.substring (String.length a) m (a +:+ r) = String.substring 0 m r.
Proof. induction a as [|c a IH]; rewrite ?str_app_cons, ?str_app_nil_l; simpl; auto. Qed.

(** A string either has no line feed, or splits at its first one, which
    is where [indexOf] points. *)
Lemma indexOf_from_NL s i :
  (occurs LF s = false /\ indexOf_from s NL i = -1) \/
  (exists a b, s = a +:+ NL +:+ b /\ occurs LF a = false /\
               indexOf_from s NL i = i + len a).
Proof.
  revert i. induction s as [|c s IH]; intros i.
  - left. split; reflexivity.
  - cbn [indexOf_from]. rewrite prefix_NL. cbn [occurs].
    destruct (Ascii.eqb_spec c LF) as [->|Hne].
    + right. exists EmptyString, s. repeat split. unfold len. simpl. lia.
    + destruct (IH (i + 1)) as [[Ho Hi]|(a & b & -> & Ho & Hi)].
      * left. split; [exact Ho | exact Hi].
      * right. exists (String c a), b. repeat split.
        -- simpl. rewrite Ho.
           destruct (Ascii.eqb_spec c LF); [contradiction | reflexivity].
        -- rewrite Hi. unfold len. simpl String.length. lia.
Qed.

Lemma indexOf_NL s :
  (occurs LF s = false /\ indexOf s NL = -1) \/
  (exists a b, s = a +:+ NL +:+ b /\ occurs LF a = false /\
               indexOf s NL = len a).
Proof. apply indexOf_from_NL. Qed.

Lemma slice2_head a r : slice2 (a +:+ r) 0 (len a) = a.
Proof.
  unfold slice2, clamp. rewrite len_app.
  pose proof (len_nonneg a). pose proof (len_nonneg r).
  destruct (Z.ltb_spec (len a) 0); [lia|].
  change (0 <? 0) with false. cbv iota.
  rewrite (Z.min_l 0) by lia. rewrite Z.min_l by lia.
  rewrite Z.sub_0_r, Z.max_l by lia.
  unfold len. rewrite Nat2Z.id. apply substring_app_l.
Qed.

Lemma slice1_tail a r : slice1 (a +:+ r) (len a) = r.
Proof.
  unfold slice1, clamp. rewrite len_app.
  pose proof (len_nonneg a). pose proof (len_nonneg r).
  destruct (Z.ltb_spec (len a) 0); [lia|].
  rewrite Z.min_l by lia.
  replace (len a + len r - len a) with (len r) by lia.
  unfold len. rewrite !Nat2Z.id, substring_app_r. apply substring_all.
Qed.

Lemma slice1_after_NL a b : slice1 (a +:+ NL +:+ b) (len a + 1) = b.
Proof.
  rewrite <- str_app_assoc.
  replace (len a + 1) with (len (a +:+ NL)) by (rewrite len_app; reflexivity).
  apply slice1_tail.
Qed.

(** ** The line framer *)

Section LineFramerFacts.

Lemma while_lines_eq {S} (callback : string -> JS S unit) backlog s :
  while_lines callback backlog s =
  let n := indexOf backlog NL in
  if Z.lnot n =? 0 then (s, (backlog, Normal tt))
  else match callback (slice2 backlog 0 n) s with
       | (s', Throw e) => (s', (backlog, Throw e))
       | (s', Normal _) => while_lines callback (slice1 backlog (n + 1)) s'
       end.
Proof.
  funelim (while_lines callback backlog s); cbn zeta.
  - match goal with E : (_ =? 0) = true |- _ => rewrite E end. reflexivity.
  - match goal with E : (_ =? 0) = false |- _ => rewrite E end.
    match goal with E : callback _ _ = _ |- _ => rewrite E end. reflexivity.
  - match goal with E : (_ =? 0) = false |- _ => rewrite E end.
    match goal with E : callback _ _ = _ |- _ => rewrite E end. reflexivity.
Qed.

Lemma unlines_app ls ls' : unlines (ls ++ ls') = unlines ls +:+ unlines ls'.
Proof.
  induction ls as [|l ls IH]; simpl; [reflexivity|].
  rewrite IH, !str_app_assoc. reflexivity.
Qed.

(** The loop hands over exactly the complete lines of the backlog and
    keeps the rest, which has no line feed. *)
Lemma while_lines_collect backlog seen :
  exists ls r,
    while_lines collect backlog seen = (seen ++ ls, (r, Normal tt)) /\
    backlog = unlines ls +:+ r /\ Forall noLF ls /\ noLF r.
Proof.
  remember (String.length backlog) as k eqn:Hk.
  revert backlog seen Hk.
  induction k as [k IH] using lt_wf_ind. intros backlog seen ->.
  rewrite while_lines_eq. cbn zeta.
  destruct (indexOf_NL backlog) as [[Hno Hi]|(a & b & -> & Ha & Hi)].
  - rewrite Hi. exists [], backlog. simpl.
    rewrite List.app_nil_r. repeat split; [constructor | exact Hno].
  - rewrite Hi. pose proof (len_nonneg a) as Hla.
    destruct (Z.eqb_spec (Z.lnot (len a)) 0) as [E|_].
    { unfold Z.lnot in E. lia. }
    rewrite slice2_head, slice1_after_NL. unfold collect at 1, modify.
    destruct (IH (String.length b)) with (backlog := b) (seen := seen ++ [a])
      as (ls & r & Hrun & Hb & Hls & Hr); [|reflexivity|].
    + pose proof (len_app a (NL +:+ b)) as H1.
      pose proof (len_app NL b) as H2. unfold len in H1, H2.
      change (String.length NL) with 1%nat in H2. lia.
    + exists (a :: ls), r. rewrite Hrun, <- List.app_assoc. simpl.
      repeat split; [| constructor; assumption | exact Hr].
      rewrite Hb at 1. rewrite !str_app_assoc. reflexivity.
Qed.

Lemma feedChunks_collect chunks backlog seen :
  noLF backlog ->
  exists ls r,
    feedChunks chunks backlog seen = (seen ++ ls, Normal r) /\
    backlog +:+ concatChunks chunks = unlines ls +:+ r /\
    Forall noLF ls /\ noLF r.
Proof.
  revert backlog seen.
  induction chunks as [|data rest IH]; intros backlog seen Hb; simpl.
  - exists [], backlog. rewrite List.app_nil_r, str_app_nil_r.
    repeat split; [constructor | exact Hb].
  - unfold onData.
    destruct (while_lines_collect (backlog +:+ data) seen)
      as (ls1 & r1 & -> & Hcat & Hls1 & Hr1).
    destruct (IH r1 (seen ++ ls1) Hr1) as (ls2 & r2 & -> & Hcat2 & Hls2 & Hr2).
    exists (ls1 ++ ls2), r2. rewrite List.app_assoc.
    repeat split; [| apply Forall_app; split; assumption | exact Hr2].
    rewrite unlines_app, str_app_assoc, <- Hcat2, <- !str_app_assoc, <- Hcat.
    reflexivity.
Qed.

Lemma splitChar_aux_noLF a s cur :
  noLF a ->
  splitChar_aux LF (a +:+ s) cur = splitChar_aux LF s (cur +:+ a).
Proof.
  revert cur. induction a as [|c a IH]; intros cur Ha.
  - rewrite str_app_nil_l, str_app_nil_r. reflexivity.
  - unfold noLF in Ha. simpl in Ha. apply orb_false_elim in Ha as [Hc Ha].
    rewrite str_app_cons. simpl. rewrite Hc, IH by exact Ha.
    rewrite str_app_assoc. reflexivity.
Qed.

Lemma splitChar_unlines ls r cur :
  Forall noLF ls -> noLF r ->
  splitChar_aux LF (unlines ls +:+ r) cur =
  match ls with
  | [] => [cur +:+ r]
  | l :: ls' => (cur +:+ l) :: ls' ++ [r]
  end.
Proof.
  intros Hls Hr. revert cur.
  induction Hls as [|l ls Hl Hls IH]; intros cur; simpl.
  - rewrite str_app_nil_l.
    rewrite <- (str_app_nil_r r) at 1.
    rewrite splitChar_aux_noLF by exact Hr. reflexivity.
  - rewrite !str_app_assoc, splitChar_aux_noLF by exact Hl.
    change (NL +:+ unlines ls +:+ r) with (String LF (unlines ls +:+ r)).
    simpl. rewrite IH.
    destruct ls; rewrite ?str_app_nil_l; reflexivity.
Qed.

Lemma splitChar_lines ls r :
  Forall noLF ls -> noLF r ->
  splitChar LF (unlines ls +:+ r) = ls ++ [r].
Proof.
  intros Hls Hr. unfold splitChar. rewrite splitChar_unlines by assumption.
  destruct ls; rewrite str_app_nil_l; reflexivity.
Qed.

Lemma join_lines ls r : join NL (ls ++ [r]) = unlines ls +:+ r.
Proof.
  induction ls as [|l ls IH]; [reflexivity|].
  simpl unlines. rewrite !str_app_assoc, <- IH.
  destruct ls; reflexivity.
Qed.

Lemma join_unlines ls : ls <> [] -> join NL ls +:+ NL = unlines ls.
Proof.
  induction ls as [|l ls IH]; [congruence|]. intros _.
  destruct ls as [|l' ls].
  - reflexivity.
  - change (join NL (l :: l' :: ls)) with (l +:+ NL +:+ join NL (l' :: ls)).
    rewrite !str_app_assoc, IH by congruence. reflexivity.
Qed.

(** What the framer emits for a whole stream, in terms of the text cut
    at its line feeds. *)
Lemma framed_cut chunks :
  exists ls r,
    concatChunks chunks = unlines ls +:+ r /\
    Forall noLF ls /\ noLF r /\
    framed chunks = ls ++ (if truthy r then [r] else []).
Proof.
  destruct (feedChunks_collect chunks EmptyString [])
    as (ls & r & Hrun & Hcat & Hls & Hr); [reflexivity|].
  exists ls, r. rewrite str_app_nil_l in Hcat.
  repeat split; try assumption.
  unfold framed, bind. rewrite Hrun. unfold onEnd.
  destruct (truthy r); [|simpl; rewrite List.app_nil_r; reflexivity].
  reflexivity.
Qed.

End LineFramerFacts.

(** C3. For every sequence of text chunks followed by end-of-stream, the
    framer emits exactly the lines of the concatenated text: every piece
    that a line feed ends, once and in order, empty pieces included, and
    the unterminated last piece when it is not empty.  No emitted line
    holds a line feed, and the lines rejoined with line feeds give the text
    back, up to one missing line feed at its end. *)
Theorem framed_lines (chunks : list string) :
  framed chunks = specLines (concatChunks chunks) /\
  Forall (fun l => occurs LF l = false) (framed chunks) /\
  (join NL (framed chunks) = concatChunks chunks \/
   join NL (framed chunks) +:+ NL = concatChunks chunks).
Proof.
  destruct (framed_cut chunks) as (ls & r & Htext & Hls & Hr & Hout).
  rewrite Hout, Htext. split; [|split].
  - unfold specLines. rewrite splitChar_lines by assumption.
    rewrite removelast_last, last_snoc. reflexivity.
  - apply Forall_app. split; [exact Hls|].
    destruct (truthy r); [constructor; [exact Hr | constructor] | constructor].
  - destruct r as [|c r].
    + simpl. rewrite List.app_nil_r, str_app_nil_r.
      destruct ls as [|l ls]; [left; reflexivity|].
      right. apply join_unlines. congruence.
    + left. apply join_lines.
Qed.

(** Three chunks that cut the text inside lines, with an empty line and an
    unterminated tail. *)
Example framed_example :
  framed ["ab"; "c" +:+ NL +:+ NL +:+ "d"; "e" +:+ NL +:+ "tail"] =
  ["abc"; EmptyString; "de"; "tail"].
Proof. vm_compute. reflexivity. Qed.

(** ** The life-cycle signals *)

Ltac js_run :=
  unfold emitError, emit, off_emitReady, modify, bind, ret, throw, get,
    with_emitted, stop_listening; simpl.

Section SignalFacts.

Lemma with_emitted_nil d : with_emitted d [] = d.
Proof. destruct d. unfold with_emitted. simpl. rewrite List.app_nil_r. reflexivity. Qed.

Lemma with_emitted_app d xs ys :
  with_emitted (with_emitted d xs) ys = with_emitted d (xs ++ ys).
Proof. unfold with_emitted. simpl. rewrite List.app_assoc. reflexivity. Qed.

(** The failure branch: the ['error'] emission, and the kill only when
    the emission has returned. *)
Lemma failure_branch payload d :
  (emitError payload >> emit (Kill 1)) d =
  if error_listener d
  then (with_emitted d [Failure payload; Kill 1], Normal tt)
  else (with_emitted d [Failure payload], Throw (UnhandledError payload)).
Proof.
  destruct d as [l [] sgs bo be c]; js_run; [|reflexivity].
  rewrite <- List.app_assoc. reflexivity.
Qed.

(** What the listener does with a value that has the two string fields. *)
Lemma emitReady_shaped v source msg d :
  logFields v = Some (source, msg) ->
  emitReady v d =
  if isReadyLine v
  then (stop_listening (with_emitted d [Ready (JStr (slice1 msg 26))]), Normal tt)
  else if isFailureLine v
       then if error_listener d
            then (with_emitted d [Failure (Some (JStr msg)); Kill 1], Normal tt)
            else (with_emitted d [Failure (Some (JStr msg))],
                  Throw (UnhandledError (Some (JStr msg))))
       else (d, Normal tt).
Proof.
  intros Hf. unfold isFailureLine, isReadyLine. rewrite Hf.
  destruct v as [| | | |?|props]; try discriminate. simpl in Hf.
  destruct (lookupProp "source" props) as [[| | |src| |]|] eqn:Hs; try discriminate.
  destruct (lookupProp "msg" props) as [[| | |m| |]|] eqn:Hm; try discriminate.
  injection Hf as -> ->.
  pose proof (failure_branch (Some (JStr msg)) d) as Hfail.
  unfold emitReady, getProp, callStartsWith. rewrite Hs, Hm.
  unfold bind at 1 2 3. unfold ret at 1 2.
  destruct (startsWith source ready_source_marker); cbn [andb negb].
  - unfold bind at 1 2. unfold ret at 1 2.
    destruct (startsWith msg ready_msg_marker); cbn [andb negb].
    + js_run. reflexivity.
    + unfold callIncludes. unfold bind at 1 2. unfold ret at 1 2.
      destruct (includes msg failure_marker); [|reflexivity].
      unfold bind at 1. unfold ret at 1. exact Hfail.
  - unfold ret at 1.
    unfold callIncludes. unfold bind at 1 2. unfold ret at 1 2.
    destruct (includes msg failure_marker); [|reflexivity].
    unfold bind at 1. unfold ret at 1. exact Hfail.
Qed.

End SignalFacts.

Section FeedFacts.

Lemma emitData_eq v d :
  emitData v d =
  if listening d then emitReady v (with_emitted d [Data v])
  else (with_emitted d [Data v], Normal tt).
Proof. destruct d as [[] el sgs bo be c]; reflexivity. Qed.

Lemma emitData_off v d :
  listening d = false -> emitData v d = (with_emitted d [Data v], Normal tt).
Proof. intros Hl. rewrite emitData_eq, Hl. reflexivity. Qed.

Lemma emitData_shaped v d :
  listening d = true -> shaped v ->
  emitData v d =
  if isReadyLine v
  then (stop_listening
          (with_emitted d [Data v; Ready (JStr (slice1 (msgOf v) 26))]),
        Normal tt)
  else if isFailureLine v
       then if error_listener d
            then (with_emitted d [Data v; Failure (Some (JStr (msgOf v))); Kill 1],
                  Normal tt)
            else (with_emitted d [Data v; Failure (Some (JStr (msgOf v)))],
                  Throw (UnhandledError (Some (JStr (msgOf v)))))
       else (with_emitted d [Data v], Normal tt).
Proof.
  intros Hl [[source msg] Hf]. rewrite emitData_eq, Hl. unfold msgOf. rewrite Hf.
  rewrite (emitReady_shaped v source msg) by exact Hf.
  rewrite !with_emitted_app.
  destruct (isReadyLine v); reflexivity.
Qed.

Lemma publishAll_app xs ys d :
  publishAll (xs ++ ys) d =
  match publishAll xs d with
  | (d', Normal _) => publishAll ys d'
  | (d', Throw e) => (d', Throw e)
  end.
Proof.
  revert d. induction xs as [|x xs IH]; intros d; simpl; [reflexivity|].
  unfold bind. destruct (emitData x d) as [d1 [[]|e]]; [apply IH | reflexivity].
Qed.

(** Once the listener is gone, publishing only records the values. *)
Lemma publishAll_off vs d :
  listening d = false ->
  publishAll vs d = (with_emitted d (map Data vs), Normal tt).
Proof.
  revert d. induction vs as [|v vs IH]; intros d Hl; simpl.
  - rewrite with_emitted_nil. reflexivity.
  - unfold bind. rewrite emitData_off by exact Hl.
    rewrite IH by exact Hl. rewrite with_emitted_app. reflexivity.
Qed.

(** While no ready line arrives, on a handle whose caller listens to
    ['error'], the listener stays and no ready signal is emitted. *)
Lemma publishAll_waiting vs d :
  listening d = true -> error_listener d = true -> Forall shaped vs ->
  Forall (fun v => isReadyLine v = false) vs ->
  exists sgs,
    publishAll vs d = (with_emitted d sgs, Normal tt) /\
    readyPayloads sgs = [].
Proof.
  intros Hl He Hs. revert d Hl He.
  induction Hs as [|v vs Hv Hs IH]; intros d Hl He Hn; simpl.
  - exists []. rewrite with_emitted_nil. split; reflexivity.
  - inversion Hn as [|? ? Hnv Hn']; subst.
    unfold bind. rewrite emitData_shaped by assumption. rewrite Hnv, He.
    destruct (isFailureLine v).
    + destruct (IH (with_emitted d [Data v; Failure (Some (JStr (msgOf v))); Kill 1]))
        as (sgs & -> & Hr); [exact Hl | exact He | exact Hn' |].
      eexists. rewrite with_emitted_app. split; [reflexivity|]. exact Hr.
    + destruct (IH (with_emitted d [Data v])) as (sgs & -> & Hr);
        [exact Hl | exact He | exact Hn' |].
      eexists. rewrite with_emitted_app. split; [reflexivity|]. exact Hr.
Qed.

Lemma readyPayloads_app xs ys :
  readyPayloads (xs ++ ys) = readyPayloads xs ++ readyPayloads ys.
Proof. apply omap_app. Qed.

Lemma readyPayloads_Data vs : readyPayloads (map Data vs) = [].
Proof. induction vs; simpl; auto. Qed.

(** The run up to and including the first ready line. *)
Lemma publishAll_first_ready pre v post d :
  listening d = true -> error_listener d = true ->
  Forall shaped pre -> shaped v ->
  Forall (fun u => isReadyLine u = false) pre -> isReadyLine v = true ->
  exists sgs,
    publishAll pre d = (with_emitted d sgs, Normal tt) /\
    readyPayloads sgs = [] /\
    publishAll (pre ++ v :: post) d =
    (stop_listening
       (with_emitted d (sgs ++ [Data v; Ready (JStr (slice1 (msgOf v) 26))]
                            ++ map Data post)),
     Normal tt).
Proof.
  intros Hl He Hpre Hv Hno Hr.
  destruct (publishAll_waiting pre d Hl He Hpre Hno) as (sgs & Hrun & Hnone).
  exists sgs. split; [exact Hrun|]. split; [exact Hnone|].
  rewrite publishAll_app, Hrun. simpl. unfold bind.
  rewrite emitData_shaped by assumption. rewrite Hr.
  rewrite publishAll_off by reflexivity.
  unfold stop_listening, with_emitted. simpl.
  rewrite <- !List.app_assoc. reflexivity.
Qed.

(** Values that are neither ready lines nor failure lines are recorded,
    and nothing else happens. *)
Lemma publishAll_undecided vs d :
  listening d = true -> Forall shaped vs ->
  Forall (fun v => decisive v = false) vs ->
  publishAll vs d = (with_emitted d (map Data vs), Normal tt).
Proof.
  intros Hl Hs. revert d Hl.
  induction Hs as [|v vs Hv Hs IH]; intros d Hl Hn; simpl.
  - rewrite with_emitted_nil. reflexivity.
  - inversion Hn as [|? ? Hnv Hn']; subst.
    unfold decisive in Hnv. apply orb_false_iff in Hnv as [Hr Hf].
    unfold bind. rewrite emitData_shaped by assumption. rewrite Hr, Hf.
    rewrite IH by assumption. rewrite with_emitted_app. reflexivity.
Qed.

(** The run on a handle with no listener on ['error'], up to the first
    ready or failure line: a ready line goes as before, and a failure line
    ends the run with the emitter's exception, before the kill. *)
Lemma publishAll_unattended pre v post d :
  listening d = true -> error_listener d = false ->
  Forall shaped pre -> shaped v ->
  Forall (fun u => decisive u = false) pre -> decisive v = true ->
  publishAll (pre ++ v :: post) d =
  if isReadyLine v
  then (stop_listening
          (with_emitted d (map Data pre ++
                           [Data v; Ready (JStr (slice1 (msgOf v) 26))] ++
                           map Data post)),
        Normal tt)
  else (with_emitted d (map Data pre ++
                        [Data v; Failure (Some (JStr (msgOf v)))]),
        Throw (UnhandledError (Some (JStr (msgOf v))))).
Proof.
  intros Hl He Hpre Hv Hno Hdec.
  rewrite publishAll_app, publishAll_undecided by assumption.
  cbn [publishAll]. unfold bind.
  rewrite emitData_shaped by assumption.
  unfold decisive in Hdec.
  destruct (isReadyLine v); cbn [orb] in Hdec.
  - rewrite publishAll_off by reflexivity.
    unfold stop_listening, with_emitted. simpl.
    rewrite <- !List.app_assoc. reflexivity.
  - rewrite Hdec. cbn [with_emitted error_listener]. rewrite He.
    unfold with_emitted. simpl. rewrite <- !List.app_assoc. reflexivity.
Qed.

Lemma find_split {A} (p : A -> bool) (l : list A) :
  match find p l with
  | Some x => exists pre post,
      l = pre ++ x :: post /\ Forall (fun u => p u = false) pre /\ p x = true
  | None => Forall (fun u => p u = false) l
  end.
Proof.
  induction l as [|a l IH]; simpl; [constructor|].
  destruct (p a) eqn:Ha.
  - exists [], l. repeat split; [constructor | exact Ha].
  - destruct (find p l) as [x|].
    + destruct IH as (pre & post & -> & Hpre & Hx).
      exists (a :: pre), post. repeat split; [constructor; assumption | exact Hx].
    + constructor; assumption.
Qed.

(** The first element satisfying [p] is determined by the list. *)
Lemma first_unique {A} (p : A -> bool) pre x post pre' x' post' :
  pre ++ x :: post = pre' ++ x' :: post' ->
  Forall (fun u => p u = false) pre -> p x = true ->
  Forall (fun u => p u = false) pre' -> p x' = true ->
  pre = pre' /\ x = x' /\ post = post'.
Proof.
  revert pre'. induction pre as [|a pre IH]; intros [|a' pre'] E H1 Hx H2 Hx';
    simpl in E.
  - injection E as -> ->. auto.
  - injection E as -> _. inversion H2; subst. congruence.
  - injection E as -> _. inversion H1; subst. congruence.
  - injection E as -> E. inversion H1; inversion H2; subst.
    destruct (IH pre' E) as (-> & -> & ->); auto.
Qed.

End FeedFacts.

(** C1. Over published log messages the ready signal fires exactly at the
    first one whose [source] starts with [rcserver/rcserver.go] and whose
    [msg] starts with [Serving remote control].  On a handle whose caller
    listens to ['error'] nothing throws, the ready payloads emitted over
    the whole run are that message's text from position 26 on (none when no
    message matches), and the calls made are those made before it, then its
    [data] and [ready] emissions, then only the [data] emissions of the
    later messages, matching or not.  On the handle as [rcd] returns it,
    where a failure line ends the run, the ready payloads are again that
    one payload when the first ready line comes before any failure line,
    and none otherwise: never more than one. *)
Theorem ready_fires_once (vs : list json) :
  Forall shaped vs ->
  snd (publishAll vs attended) = Normal tt /\
  readyPayloads (emitted (fst (publishAll vs attended))) =
    match find isReadyLine vs with
    | Some v => [JStr (slice1 (msgOf v) 26)]
    | None => []
    end /\
  (forall pre v post,
    vs = pre ++ v :: post ->
    Forall (fun u => isReadyLine u = false) pre -> isReadyLine v = true ->
    readyPayloads (emitted (fst (publishAll pre attended))) = [] /\
    emitted (fst (publishAll vs attended)) =
      emitted (fst (publishAll pre attended)) ++
      [Data v; Ready (JStr (slice1 (msgOf v) 26))] ++ map Data post) /\
  readyPayloads (emitted (fst (publishAll vs started))) =
    match find decisive vs with
    | Some v => if isReadyLine v then [JStr (slice1 (msgOf v) 26)] else []
    | None => []
    end.
Proof.
  intros Hs.
  assert (forall pre v post,
    vs = pre ++ v :: post ->
    Forall (fun u => isReadyLine u = false) pre -> isReadyLine v = true ->
    exists sgs,
      publishAll pre attended = (with_emitted attended sgs, Normal tt) /\
      readyPayloads sgs = [] /\
      publishAll vs attended =
      (stop_listening
         (with_emitted attended
            (sgs ++ [Data v; Ready (JStr (slice1 (msgOf v) 26))] ++ map Data post)),
       Normal tt)) as Hfirst.
  { intros pre v post -> Hno Hr.
    apply Forall_app in Hs as [Hpre Hrest]. inversion Hrest; subst.
    apply publishAll_first_ready; auto. }
  assert (readyPayloads (emitted (fst (publishAll vs started))) =
          match find decisive vs with
          | Some v => if isReadyLine v then [JStr (slice1 (msgOf v) 26)] else []
          | None => []
          end) as Hbare.
  { pose proof (find_split decisive vs) as Hfind.
    destruct (find decisive vs) as [v|].
    - destruct Hfind as (pre & post & -> & Hno & Hdec).
      apply Forall_app in Hs as [Hpre Hrest]. inversion Hrest; subst.
      rewrite publishAll_unattended by (assumption || reflexivity).
      destruct (isReadyLine v);
        cbn [fst stop_listening with_emitted emitted started];
        rewrite List.app_nil_l, !readyPayloads_app, !readyPayloads_Data;
        reflexivity.
    - rewrite publishAll_undecided by (assumption || reflexivity).
      cbn [fst with_emitted emitted started].
      rewrite List.app_nil_l. apply readyPayloads_Data. }
  pose proof (find_split isReadyLine vs) as Hfind.
  destruct (find isReadyLine vs) as [v|].
  - destruct Hfind as (pre & post & E & Hno & Hr).
    destruct (Hfirst pre v post E Hno Hr) as (sgs & Hpre & Hnone & Hrun).
    rewrite Hrun.
    cbn [fst snd stop_listening with_emitted emitted attended on_error started].
    rewrite List.app_nil_l. split; [reflexivity|]. split; [|split; [|exact Hbare]].
    + rewrite !readyPayloads_app, Hnone, readyPayloads_Data. reflexivity.
    + intros pre' v' post' E' Hno' Hr'.
      rewrite E in E'.
      destruct (first_unique isReadyLine _ _ _ _ _ _ E' Hno Hr Hno' Hr')
        as (<- & <- & <-).
      rewrite Hpre. cbn [fst with_emitted emitted attended on_error started].
      rewrite List.app_nil_l. split; [exact Hnone | reflexivity].
  - destruct (publishAll_waiting vs attended eq_refl eq_refl Hs Hfind)
      as (sgs & Hrun & Hnone).
    rewrite Hrun. cbn [fst snd with_emitted emitted attended on_error started].
    rewrite List.app_nil_l. split; [reflexivity|].
    split; [exact Hnone|]. split; [|exact Hbare].
    intros pre v post -> _ Hr.
    apply Forall_app in Hfind as [_ Hv]. inversion Hv; subst. congruence.
Qed.

(** Three published messages: a notice, then the serving line twice. *)
Lemma ready_fires_once_witness :
  Forall shaped [failure_notice; serving_line; serving_line] /\
  readyPayloads
    (emitted (fst (publishAll [failure_notice; serving_line; serving_line] attended))) =
  [JStr "http://127.0.0.1:5572/"].
Proof.
  assert (Forall shaped [failure_notice; serving_line; serving_line]) as Hs.
  { repeat constructor; eexists; reflexivity. }
  split; [exact Hs|].
  destruct (ready_fires_once _ Hs) as (_ & Hready & _).
  rewrite Hready. reflexivity.
Defined.

(** The serving line of the specification, read from the daemon's error
    stream in two chunks, fires the ready signal once with the address. *)
Example serving_line_end_to_end :
  let text :=
    Ref.dq "{'level':'info','msg':'Serving remote control on http://127.0.0.1:5572/','source':'rcserver/rcserver.go:123','time':'2022-11-02T08:07:00Z'}" in
  exists v,
    Ref.JSON_parse text = Some v /\
    deliverAll Ref.JSON_parse (fun _ => "2022-11-02T08:07:01.000Z")
      [(Stderr, Chunk (slice2 text 0 40));
       (Stderr, Chunk (slice1 text 40 +:+ NL +:+ text +:+ NL));
       (Stderr, End)] started =
    (mkDaemon false false
              [Data v; Ready (JStr "http://127.0.0.1:5572/"); Data v]
              EmptyString EmptyString 0,
     Normal tt).
Proof.
  eexists. split; [vm_compute; reflexivity|].
  vm_compute. reflexivity.
Qed.

(** ** The failure signal *)

(** C2. The failure branch of [emitReady] does not take the listener off
    ['data'], as the ready branch does, so detection stays on after a start
    failure.  On a handle whose caller listens to ['error'], publishing the
    failure notice and then the serving line emits the failure signal with
    the message text, calls [kill(1)], and then still emits the ready
    signal; a second failure notice emits the failure signal and calls
    [kill(1)] a second time.  On the handle as [rcd] returns it, with no
    listener on ['error'], emitting the failure signal throws and [kill] is
    not called at all. *)
Theorem ready_after_failure :
  let text := "Failed to start remote control: address already in use" in
  publishAll [failure_notice; serving_line] attended =
    (stop_listening
       (with_emitted attended
          [Data failure_notice; Failure (Some (JStr text)); Kill 1;
           Data serving_line; Ready (JStr "http://127.0.0.1:5572/")]),
     Normal tt) /\
  publishAll [failure_notice; failure_notice] attended =
    (with_emitted attended
       [Data failure_notice; Failure (Some (JStr text)); Kill 1;
        Data failure_notice; Failure (Some (JStr text)); Kill 1],
     Normal tt) /\
  listening (fst (emitData failure_notice attended)) = true /\
  emitData failure_notice started =
    (with_emitted started [Data failure_notice; Failure (Some (JStr text))],
     Throw (UnhandledError (Some (JStr text)))).
Proof. repeat split; vm_compute; reflexivity. Qed.

(** The failure test sits behind the ready test: a message of the
    remote-control server that matches the ready pattern fires the ready
    signal, and only that, even when its text holds the failure marker. *)
Example ready_test_first :
  let v :=
    JObj [("msg", JStr "Serving remote control on Failed to start remote control: x");
          ("source", JStr "rcserver/rcserver.go")] in
  emitData v attended =
  (stop_listening
     (with_emitted attended
        [Data v; Ready (JStr "Failed to start remote control: x")]),
   Normal tt).
Proof. vm_compute. reflexivity. Qed.

(** The failure notice arriving on the error stream of the handle as [rcd]
    returns it: the exception of the emitter leaves the framer's listener,
    the process is not killed, and the line stays in the backlog. *)
Example failure_line_end_to_end :
  let text :=
    Ref.dq "{'level':'error','msg':'Failed to start remote control: address already in use','source':'rcd/rcd.go:51','time':'2022-11-02T08:07:00Z'}" in
  deliver Ref.JSON_parse (fun _ => EmptyString) Stderr (Chunk (text +:+ NL))
          started =
  (mkDaemon true false
            [Data failure_notice;
             Failure (Some (JStr "Failed to start remote control: address already in use"))]
            EmptyString (text +:+ NL) 0,
   Throw (UnhandledError
            (Some (JStr "Failed to start remote control: address already in use")))).
Proof. vm_compute. reflexivity. Qed.

(** ** The log parser *)

Section ParserFacts.

Lemma shaped_handlerSafe v : shaped v -> handlerSafe v = true.
Proof.
  intros [[source msg] Hf]. destruct v as [| | | | |props]; try discriminate.
  simpl in *.
  destruct (lookupProp "source" props) as [[| | |?| |]|]; try discriminate.
  destruct (lookupProp "msg" props) as [[| | |?| |]|]; try discriminate.
  reflexivity.
Qed.

(** On the values outside [handlerSafe] the listener throws a [TypeError]
    and has changed nothing; on the others it never throws one: it returns,
    or the ['error'] emission throws for want of a listener. *)
Lemma emitReady_completion v d :
  if handlerSafe v
  then (exists sgs, emitted (fst (emitReady v d)) = emitted d ++ sgs) /\
       (snd (emitReady v d) = Normal tt \/
        error_listener d = false /\
        exists payload, snd (emitReady v d) = Throw (UnhandledError payload))
  else emitReady v d = (d, Throw TypeError).
Proof.
  assert (forall payload,
            (exists sgs, emitted (fst ((emitError payload >> emit (Kill 1)) d)) =
                         emitted d ++ sgs) /\
            (snd ((emitError payload >> emit (Kill 1)) d) = Normal tt \/
             error_listener d = false /\
             exists p, snd ((emitError payload >> emit (Kill 1)) d) =
                       Throw (UnhandledError p))) as Hfail.
  { intros payload. rewrite failure_branch.
    destruct (error_listener d); cbn [fst snd with_emitted emitted].
    - split; [eexists; reflexivity | left; reflexivity].
    - split; [eexists; reflexivity | right; split; [reflexivity|]].
      eexists; reflexivity. }
  assert ((exists sgs, emitted d = emitted d ++ sgs) /\
          (@Normal unit tt = Normal tt \/
           error_listener d = false /\
           exists p, @Normal unit tt = Throw (UnhandledError p))) as Hidle.
  { split; [exists []; rewrite List.app_nil_r; reflexivity | left; reflexivity]. }
  destruct v as [| | | | |props]; try reflexivity.
  unfold handlerSafe, emitReady, getProp, callStartsWith, callIncludes.
  unfold bind, ret in Hfail |- *.
  destruct (lookupProp "source" props) as [[| | |source| |]|]; try reflexivity.
  destruct (lookupProp "msg" props) as [[| | |msg|items|]|];
    destruct (startsWith source ready_source_marker); cbn [negb];
    try reflexivity.
  - destruct (startsWith msg ready_msg_marker).
    + js_run. split; [eexists; reflexivity | left; reflexivity].
    + destruct (includes msg failure_marker); [apply Hfail | exact Hidle].
  - destruct (includes msg failure_marker); [apply Hfail | exact Hidle].
  - destruct (existsb (isStr failure_marker) items); [apply Hfail | exact Hidle].
Qed.

(** Publishing records the value first; a [TypeError] comes out exactly
    when the listener is registered and the value is outside
    [handlerSafe]. *)
Lemma emitData_completion v d :
  (exists sgs, emitted (fst (emitData v d)) = emitted d ++ Data v :: sgs) /\
  (snd (emitData v d) = Throw TypeError <->
   listening d = true /\ handlerSafe v = false).
Proof.
  rewrite emitData_eq.
  pose proof (emitReady_completion v (with_emitted d [Data v])) as H.
  destruct (listening d).
  - destruct (handlerSafe v).
    + destruct H as ((sgs & Hsgs) & Hc). split.
      * exists sgs. rewrite Hsgs. simpl. rewrite <- List.app_assoc. reflexivity.
      * split; [|intros [_ ?]; discriminate].
        intros Ht. destruct Hc as [Hc|(_ & p & Hc)]; rewrite Hc in Ht; discriminate.
    + rewrite H. split; [exists []; reflexivity|]. split; auto.
  - split; [exists []; reflexivity|].
    split; [discriminate | intros [? _]; discriminate].
Qed.

(** The completion of publishing a value with the two string fields. *)
Lemma emitData_shaped_completion v d :
  shaped v ->
  snd (emitData v d) =
  if listening d && negb (error_listener d) && isFailureLine v
  then Throw (UnhandledError (Some (JStr (msgOf v))))
  else Normal tt.
Proof.
  intros Hs. destruct (listening d) eqn:Hl; cbn [andb].
  - rewrite emitData_shaped by assumption.
    assert (isReadyLine v = true -> isFailureLine v = false) as Hexcl.
    { intros Hr. unfold isFailureLine. rewrite Hr.
      destruct (logFields v) as [[? ?]|]; reflexivity. }
    destruct (isReadyLine v).
    + rewrite Hexcl by reflexivity. rewrite andb_false_r. reflexivity.
    + destruct (isFailureLine v), (error_listener d); reflexivity.
  - rewrite emitData_off by assumption. reflexivity.
Qed.

End ParserFacts.

(** C4. A line that [JSON.parse] rejects yields the object with level
    [error], empty source, the clock's timestamp and the raw line as [msg].
    The parser returns normally, and the object is published: the calls
    made start with its [data] emission.  Emitting it returns normally,
    always so when the caller listens to ['error']; the one exception is a
    raw line that holds the failure marker while the listener is registered
    and nobody listens to ['error'], where the emitter throws, not the
    parser. *)
Theorem unparsable_line_wrapped
    (JSON_parse : string -> option json) (Date_toJSON : nat -> string)
    (text : string) (d : Daemon) :
  JSON_parse text = None ->
  let v := JObj [("level", JStr "error"); ("source", JStr EmptyString);
                 ("time", JStr (Date_toJSON (clock d))); ("msg", JStr text)] in
  rcdJsonParser JSON_parse Date_toJSON text d = (tick d, Normal v) /\
  snd (jsonLogEmmit JSON_parse Date_toJSON text d) =
    (if listening d && negb (error_listener d) && includes text failure_marker
     then Throw (UnhandledError (Some (JStr text)))
     else Normal tt) /\
  (error_listener d = true ->
   snd (jsonLogEmmit JSON_parse Date_toJSON text d) = Normal tt) /\
  exists sgs,
    emitted (fst (jsonLogEmmit JSON_parse Date_toJSON text d)) =
    emitted d ++ Data v :: sgs.
Proof.
  intros Hp v.
  assert (rcdJsonParser JSON_parse Date_toJSON text d = (tick d, Normal v)) as Hr.
  { unfold rcdJsonParser. rewrite Hp. reflexivity. }
  split; [exact Hr|].
  unfold jsonLogEmmit, bind. rewrite Hr.
  assert (shaped v) as Hs by (eexists; reflexivity).
  assert (snd (emitData v (tick d)) =
          if listening d && negb (error_listener d) && includes text failure_marker
          then Throw (UnhandledError (Some (JStr text)))
          else Normal tt) as Hc.
  { rewrite (emitData_shaped_completion v (tick d) Hs). reflexivity. }
  destruct (emitData_completion v (tick d)) as [[sgs Hsgs] _].
  split; [exact Hc|]. split.
  - intros He. rewrite Hc, He. cbn [negb]. rewrite andb_false_r. reflexivity.
  - exists sgs. exact Hsgs.
Qed.

(** The line of the specification, through the reference parser. *)
Lemma unparsable_line_wrapped_witness :
  Ref.JSON_parse "panic: something bad" = None /\
  rcdJsonParser Ref.JSON_parse (fun _ => "2022-11-02T08:07:01.000Z")
                "panic: something bad" started =
  (tick started,
   Normal (JObj [("level", JStr "error"); ("source", JStr EmptyString);
                 ("time", JStr "2022-11-02T08:07:01.000Z");
                 ("msg", JStr "panic: something bad")])) /\
  snd (jsonLogEmmit Ref.JSON_parse (fun _ => "2022-11-02T08:07:01.000Z")
                    "panic: something bad" started) = Normal tt.
Proof.
  assert (Ref.JSON_parse "panic: something bad" = None) as Hp
    by (vm_compute; reflexivity).
  split; [exact Hp|].
  destruct (unparsable_line_wrapped Ref.JSON_parse
              (fun _ => "2022-11-02T08:07:01.000Z") _ started Hp)
    as (Hr & Hc & _).
  split; [exact Hr|]. rewrite Hc. reflexivity.
Defined.

(** C10. A line that [JSON.parse] accepts is returned as parsed, without
    any check, and published as it is.  For a value with string [source]
    and [msg] every read and call of the listener is defined: the emission
    never throws a [TypeError], and returns normally unless the value is a
    failure line met while nobody listens to ['error'].  With the listener
    registered the emission throws a [TypeError] for every value outside
    [handlerSafe], such as [null], a number, or any value that is not an
    object. *)
Theorem parsed_value_unchecked
    (JSON_parse : string -> option json) (Date_toJSON : nat -> string)
    (text : string) (v : json) (d : Daemon) :
  JSON_parse text = Some v ->
  rcdJsonParser JSON_parse Date_toJSON text d = (d, Normal v) /\
  jsonLogEmmit JSON_parse Date_toJSON text d = emitData v d /\
  (exists sgs, emitted (fst (emitData v d)) = emitted d ++ Data v :: sgs) /\
  (shaped v ->
   snd (emitData v d) =
   if listening d && negb (error_listener d) && isFailureLine v
   then Throw (UnhandledError (Some (JStr (msgOf v))))
   else Normal tt) /\
  (shaped v -> error_listener d = true -> snd (emitData v d) = Normal tt) /\
  (listening d = true -> handlerSafe v = false ->
   snd (emitData v d) = Throw TypeError) /\
  (match v with JObj _ => True | _ => handlerSafe v = false end).
Proof.
  intros Hp.
  assert (rcdJsonParser JSON_parse Date_toJSON text d = (d, Normal v)) as Hr.
  { unfold rcdJsonParser. rewrite Hp. reflexivity. }
  destruct (emitData_completion v d) as [Hsgs Hc].
  repeat split.
  - exact Hr.
  - unfold jsonLogEmmit, bind. rewrite Hr. reflexivity.
  - exact Hsgs.
  - intros Hs. apply emitData_shaped_completion. exact Hs.
  - intros Hs He. rewrite emitData_shaped_completion by exact Hs.
    rewrite He. cbn [negb]. rewrite andb_false_r. reflexivity.
  - intros Hl Hu. apply Hc. split; assumption.
  - destruct v; reflexivity || exact I.
Qed.

(** The lines [null] and [42], through the reference parser. *)
Lemma parsed_value_unchecked_witness :
  (Ref.JSON_parse "null" = Some JNull /\
   jsonLogEmmit Ref.JSON_parse (fun _ => EmptyString) "null" started =
     (with_emitted started [Data JNull], Throw TypeError)) /\
  (Ref.JSON_parse "42" = Some (JNum 42 0) /\
   jsonLogEmmit Ref.JSON_parse (fun _ => EmptyString) "42" started =
     (with_emitted started [Data (JNum 42 0)], Throw TypeError)).
Proof.
  assert (Ref.JSON_parse "null" = Some JNull) as Hnull by (vm_compute; reflexivity).
  assert (Ref.JSON_parse "42" = Some (JNum 42 0)) as Hnum by (vm_compute; reflexivity).
  split; (split; [assumption|]).
  - destruct (parsed_value_unchecked Ref.JSON_parse (fun _ => EmptyString)
                _ _ started Hnull) as (_ & -> & _).
    vm_compute. reflexivity.
  - destruct (parsed_value_unchecked Ref.JSON_parse (fun _ => EmptyString)
                _ _ started Hnum) as (_ & -> & _).
    vm_compute. reflexivity.
Defined.

(** The line [null] arriving on the output stream: the exception leaves
    the framer's listener before the line is cut off the backlog. *)
Example null_line_end_to_end :
  deliver Ref.JSON_parse (fun _ => EmptyString) Stdout (Chunk ("null" +:+ NL))
          started =
  (mkDaemon true false [Data JNull] ("null" +:+ NL) EmptyString 0,
   Throw TypeError).
Proof. vm_compute. reflexivity. Qed.

(** ** The driver *)

Section DriverFacts.
Variable binary : string.
Variable configFile : option string.
Variable devNull : string.
Variable run_sync :
  string -> list string -> option (gmap string string) ->
  completion SpawnSyncReturns.
Variable semver_clean : string -> option string.

Lemma splitLines_aux_head s cur : exists l ls, splitLines_aux s cur = l :: ls.
Proof.
  remember (String.length s) as k eqn:Hk. revert s cur Hk.
  induction k as [k IH] using lt_wf_ind. intros s cur ->.
  destruct s as [|a s']; simpl; [eauto|].
  destruct (Ascii.eqb a LF); [eauto|].
  destruct s' as [|b s'']; [eauto|].
  destruct (Ascii.eqb a CR && Ascii.eqb b LF); [eauto|].
  eapply IH; [|reflexivity]. simpl. lia.
Qed.

Lemma splitSpaces_aux_last s cur inrun :
  exists ls l, splitSpaces_aux s cur inrun = ls ++ [l].
Proof.
  revert cur inrun. induction s as [|a s IH]; intros cur inrun; simpl.
  - exists [], cur. reflexivity.
  - destruct (isSpace a); [destruct inrun|]; try apply IH.
    destruct (IH EmptyString true) as (ls & l & ->).
    exists (cur :: ls), l. reflexivity.
Qed.

(** Whenever the subprocess call hands back an output array, [getVersion]
    returns what [semver.clean] makes of the token, [null] included. *)
Lemma getVersion_with_output h out :
  run_sync binary ["version"] (Some {["RCLONE_CONFIG" := devNull]}) =
    Normal (mkReturns (Some out)) ->
  getVersion binary devNull run_sync semver_clean h =
  (logged h binary ["version"] (Some {["RCLONE_CONFIG" := devNull]}),
   Normal (semver_clean (versionToken out))).
Proof.
  intros Hrun.
  destruct (splitLines_aux_head (trim (arrayToString out)) EmptyString)
    as (line & rest & Hl).
  destruct (splitSpaces_aux_last line EmptyString false) as (ws & w & Hw).
  assert (versionToken out = w) as ->.
  { unfold versionToken, splitLines, splitSpaces. rewrite Hl. simpl.
    rewrite Hw, last_snoc. reflexivity. }
  unfold getVersion, bind, catch, spawnSync. rewrite Hrun.
  cbn [output]. unfold splitLines. rewrite Hl. cbn [head].
  unfold splitSpaces. rewrite Hw, last_snoc. reflexivity.
Qed.

Lemma getVersion_without_output h r :
  run_sync binary ["version"] (Some {["RCLONE_CONFIG" := devNull]}) = r ->
  match r with Normal (mkReturns (Some _)) => False | _ => True end ->
  getVersion binary devNull run_sync semver_clean h =
  (logged h binary ["version"] (Some {["RCLONE_CONFIG" := devNull]}),
   Throw (Error "Cannot detect Rclone version.")).
Proof.
  intros Hrun Hr. unfold getVersion, bind, catch, spawnSync. rewrite Hrun.
  destruct r as [[[out|]]|e]; [contradiction | reflexivity | reflexivity].
Qed.

(** [getConfigFile], case by case. *)
Lemma getConfigFile_eq h :
  getConfigFile binary configFile run_sync h =
  match configFile with
  | Some (String c path) => (h, Normal (String c path))
  | _ =>
      (logged h binary ["config"; "file"] None,
       match run_sync binary ["config"; "file"] None with
       | Normal (mkReturns (Some out)) =>
           Normal (trim (orEmpty
                     (splitChar LF (trim (arrayToString out)) !! 1%nat)))
       | _ => Throw (Error "Cannot detect default Rclone file.")
       end)
  end.
Proof.
  assert (getDefaultConfigFile binary run_sync h =
          (logged h binary ["config"; "file"] None,
           match run_sync binary ["config"; "file"] None with
           | Normal (mkReturns (Some out)) =>
               Normal (trim (orEmpty
                         (splitChar LF (trim (arrayToString out)) !! 1%nat)))
           | _ => Throw (Error "Cannot detect default Rclone file.")
           end)) as Hdef.
  { unfold getDefaultConfigFile, bind, catch, spawnSync.
    destruct (run_sync binary ["config"; "file"] None) as [[[out|]]|e];
      reflexivity. }
  unfold getConfigFile. destruct configFile as [[|c path]|]; simpl; auto.
Qed.

End DriverFacts.

(** The output of the specification's example yields [1.60.0]. *)
Example getVersion_example :
  snd (getVersion "rclone" "/dev/null"
         (printing [None;
                    Some ("rclone v1.60.0" +:+ NL +:+
                          "- os/version: debian 11.5 (64 bit)" +:+ NL);
                    Some EmptyString])
         Ref.semver_clean fresh_host) =
  Normal (Some "1.60.0").
Proof. vm_compute. reflexivity. Qed.

(** C6, where the code departs from it.  When the process prints nothing,
    or prints a first line whose last token is no version, [getVersion]
    does not fail: it returns [null], the result of [semver.clean]. *)
Theorem getVersion_returns_null :
  getVersion "rclone" "/dev/null"
    (printing [None; Some EmptyString; Some EmptyString])
    Ref.semver_clean fresh_host =
  (mkHost [("rclone", ["version"], Some {["RCLONE_CONFIG" := "/dev/null"]})] [],
   Normal None) /\
  getVersion "rclone" "/dev/null"
    (printing [None; Some ("rclone unknown" +:+ NL); Some EmptyString])
    Ref.semver_clean fresh_host =
  (mkHost [("rclone", ["version"], Some {["RCLONE_CONFIG" := "/dev/null"]})] [],
   Normal None).
Proof.
  split.
  - rewrite (getVersion_with_output _ _ _ _ _ [None; Some EmptyString; Some EmptyString])
      by reflexivity.
    vm_compute. reflexivity.
  - rewrite (getVersion_with_output _ _ _ _ _
               [None; Some ("rclone unknown" +:+ NL); Some EmptyString])
      by reflexivity.
    vm_compute. reflexivity.
Qed.

(** The usual output of [rclone config file]. *)
Example getConfigFile_example :
  getConfigFile "rclone" None
    (printing [None;
               Some ("Configuration file is stored at:" +:+ NL +:+
                     "/home/user/.config/rclone/rclone.conf" +:+ NL);
               Some EmptyString])
    fresh_host =
  (mkHost [("rclone", ["config"; "file"], None)] [],
   Normal "/home/user/.config/rclone/rclone.conf").
Proof. vm_compute. reflexivity. Qed.

(** C7, as stated, fails: with no explicit path and a subprocess that
    prints nothing, the operation does not fail but returns the empty
    string, which the guard [|| ''] provides for a missing second line. *)
Lemma getConfigFile_empty_output :
  getConfigFile "rclone" None
    (printing [None; Some EmptyString; Some EmptyString]) fresh_host =
  (mkHost [("rclone", ["config"; "file"], None)] [], Normal EmptyString).
Proof. vm_compute. reflexivity. Qed.

(** C7, amended.  A non-empty explicit path is returned as it is and the
    host is left untouched: no subprocess runs.  Otherwise the binary is
    run once with [config file]; when the call hands back an output array,
    the result is the trimmed second line of its text, or the empty string
    when there is no second line; the operation fails with the detection
    error only when the call throws or hands back no output. *)
Theorem getConfigFile_cases
    (binary : string) (configFile : option string)
    (run_sync : string -> list string -> option (gmap string string) ->
                completion SpawnSyncReturns)
    (h : Host) :
  getConfigFile binary configFile run_sync h =
  match configFile with
  | Some (String c path) => (h, Normal (String c path))
  | _ =>
      (mkHost (sync_calls h ++ [(binary, ["config"; "file"], None)]) (spawned h),
       match run_sync binary ["config"; "file"] None with
       | Normal (mkReturns (Some out)) =>
           Normal (trim (match splitChar LF (trim (arrayToString out)) !! 1%nat with
                         | Some line => line
                         | None => EmptyString
                         end))
       | _ => Throw (Error "Cannot detect default Rclone file.")
       end)
  end.
Proof.
  rewrite getConfigFile_eq. destruct configFile as [[|c path]|]; try reflexivity.
  all: unfold logged; f_equal;
    destruct (run_sync binary ["config"; "file"] None) as [[[out|]]|e];
    try reflexivity.
  all: destruct (splitChar LF (trim (arrayToString out)) !! 1%nat) as [[|a l]|];
    reflexivity.
Qed.

(** ** The daemon's environment *)

(** C5. When [rcd] starts the daemon, its environment is [rcdEnv] of the
    resolved configuration file and the caller's map: [RCLONE_USE_JSON_LOG]
    is [true] whatever the caller supplied, and every other name has the
    caller's value when the caller supplies one and the baseline's value
    otherwise.  The baseline switches confirmation and password prompts
    off and sets both server timeouts to 8760 hours. *)
Theorem rcd_environment
    (binary : string) (configFile : option string)
    (run_sync : string -> list string -> option (gmap string string) ->
                completion SpawnSyncReturns)
    (env : option (gmap string string)) (h h' : Host) (handle : Daemon) :
  rcd binary configFile run_sync env h = (h', Normal handle) ->
  exists configPath h1,
    getConfigFile binary configFile run_sync h = (h1, Normal configPath) /\
    sync_calls h' = sync_calls h1 /\
    spawned h' =
      spawned h1 ++
      [(binary, ["rcd"], mkOptions false false true "pipe" (rcdEnv configPath env))] /\
    rcdEnv configPath env !! "RCLONE_USE_JSON_LOG" = Some "true" /\
    (forall k, k <> "RCLONE_USE_JSON_LOG" ->
       rcdEnv configPath env !! k =
       match default ∅ env !! k with
       | Some v => Some v
       | None => rcdBaseline configPath !! k
       end) /\
    rcdBaseline configPath !! "RCLONE_AUTO_CONFIRM" = Some "false" /\
    rcdBaseline configPath !! "RCLONE_PASSWORD" = Some "false" /\
    rcdBaseline configPath !! "RCLONE_RC_SERVER_WRITE_TIMEOUT" = Some "8760h0m0s" /\
    rcdBaseline configPath !! "RCLONE_RC_SERVER_READ_TIMEOUT" = Some "8760h0m0s" /\
    rcdBaseline configPath !! "RCLONE_CONFIG" = Some configPath.
Proof.
  unfold rcd, bind. intros Hrun.
  destruct (getConfigFile binary configFile run_sync h) as [h1 [configPath|e]];
    [|discriminate].
  unfold spawn, modify, ret in Hrun. injection Hrun as <- <-.
  exists configPath, h1. cbn [sync_calls spawned].
  repeat split.
  - unfold rcdEnv. apply lookup_insert_eq.
  - intros k Hk. unfold rcdEnv. rewrite lookup_insert_ne by congruence.
    rewrite lookup_union.
    destruct (default ∅ env !! k), (rcdBaseline configPath !! k); reflexivity.
Qed.

(** A caller that tries to switch JSON logging off and raises the log
    level: the first is overridden, the second kept. *)
Lemma rcd_environment_witness :
  let env : option (gmap string string) :=
    Some {["RCLONE_USE_JSON_LOG" := "false"; "RCLONE_LOG_LEVEL" := "DEBUG"]} in
  let E := rcdEnv "/etc/rclone.conf" env in
  rcd "rclone" (Some "/etc/rclone.conf") (printing []) env fresh_host =
    (mkHost [] [("rclone", ["rcd"], mkOptions false false true "pipe" E)],
     Normal started) /\
  E !! "RCLONE_USE_JSON_LOG" = Some "true" /\
  E !! "RCLONE_LOG_LEVEL" = Some "DEBUG" /\
  E !! "RCLONE_PASSWORD" = Some "false".
Proof.
  intros env E.
  assert (rcd "rclone" (Some "/etc/rclone.conf") (printing []) env fresh_host =
          (mkHost [] [("rclone", ["rcd"], mkOptions false false true "pipe" E)],
           Normal started)) as Hrun by reflexivity.
  split; [exact Hrun|].
  destruct (rcd_environment _ _ _ _ _ _ _ Hrun)
    as (configPath & h1 & Hcfg & _ & _ & Hjson & Hother & _).
  injection Hcfg as <- <-. unfold E.
  split; [exact Hjson|]. split.
  - rewrite (Hother "RCLONE_LOG_LEVEL") by discriminate. reflexivity.
  - rewrite (Hother "RCLONE_PASSWORD") by discriminate. reflexivity.
Defined.

(** ** The remote-control client *)

(** C8. [remoteCommand] hands exactly one request to [fetch]: a POST to
    the server's [uri] followed by the endpoint, with content type
    [application/json], with the serialised payload as body (the serialised
    empty object when no payload is given), and with an [Authorization]
    value that is [Basic] and the base64 text of [auth] exactly when [auth]
    is not empty, and [null] otherwise. *)
Theorem remoteCommand_request
    (JSON_stringify : json -> string)
    (server : RemoteCommandServerInfo) (endpoint : string)
    (payload : option json) (calls : list FetchCall) :
  exists request,
    remoteCommand JSON_stringify server endpoint payload calls =
      (calls ++ [request], Normal tt) /\
    url request = uri server +:+ endpoint /\
    method request = "POST" /\
    header "Content-Type" request = Some (Some "application/json") /\
    match payload with
    | Some v => isObject v = true -> body request = JSON_stringify v
    | None => body request = JSON_stringify (JObj [])
    end /\
    (header "Authorization" request =
       Some (Some ("Basic " +:+ base64 (utf8 (auth server)))) <->
     auth server <> EmptyString) /\
    (auth server = EmptyString -> header "Authorization" request = Some None).
Proof.
  eexists. split; [reflexivity|]. cbn [url method headers body].
  repeat split.
  - destruct payload as [v|]; [|reflexivity].
    intros Hv. destruct v; try discriminate; reflexivity.
  - destruct (auth server); [discriminate | intros _; discriminate].
  - intros Hne. destruct (auth server); [contradiction | reflexivity].
  - intros ->. reflexivity.
Qed.

Lemma remoteCommand_request_witness :
  isObject (JObj [("fs", JStr "remote:")]) = true /\
  remoteCommand Ref.JSON_stringify
    (mkServer "user:pass" "http://127.0.0.1:5572/") "operations/about"
    (Some (JObj [("fs", JStr "remote:")])) [] =
  ([mkFetch "http://127.0.0.1:5572/operations/about" "POST"
            [("Authorization", Some "Basic dXNlcjpwYXNz");
             ("Content-Type", Some "application/json")]
            (Ref.dq "{'fs':'remote:'}")],
   Normal tt).
Proof.
  split; [reflexivity|].
  destruct (remoteCommand_request Ref.JSON_stringify
              (mkServer "user:pass" "http://127.0.0.1:5572/") "operations/about"
              (Some (JObj [("fs", JStr "remote:")])) [])
    as (request & Hrun & _).
  rewrite Hrun. injection Hrun as <-. reflexivity.
Defined.


(** * Further properties *)

(** ** The framer under any callback *)

Section HandingFacts.
Context {St : Type}.
Variable callback : string -> JS St unit.

Lemma indexOf_from_first_NL a b i :
  noLF a -> indexOf_from (a +:+ NL +:+ b) NL i = i + len a.
Proof.
  revert i. induction a as [|c a IH]; intros i Ha.
  - rewrite str_app_nil_l. change (NL +:+ b) with (String LF b).
    cbn [indexOf_from]. rewrite prefix_NL, Ascii.eqb_refl. unfold len. simpl. lia.
  - unfold noLF in Ha. simpl in Ha. apply orb_false_elim in Ha as [Hc Ha].
    rewrite str_app_cons. cbn [indexOf_from]. rewrite prefix_NL, Hc.
    rewrite IH by exact Ha. unfold len. simpl String.length. lia.
Qed.

(** One round of the loop on a backlog that starts with a complete line. *)
Lemma while_lines_step l rest s :
  noLF l ->
  while_lines callback (l +:+ NL +:+ rest) s =
  match callback l s with
  | (s', Throw e) => (s', (l +:+ NL +:+ rest, Throw e))
  | (s', Normal _) => while_lines callback rest s'
  end.
Proof.
  intros Hl. rewrite while_lines_eq. cbn zeta. unfold indexOf.
  rewrite indexOf_from_first_NL by exact Hl. rewrite Z.add_0_l.
  pose proof (len_nonneg l).
  destruct (Z.eqb_spec (Z.lnot (len l)) 0) as [E|_]; [unfold Z.lnot in E; lia|].
  rewrite slice2_head, slice1_after_NL. reflexivity.
Qed.

Lemma while_lines_done backlog s :
  noLF backlog -> while_lines callback backlog s = (s, (backlog, Normal tt)).
Proof.
  intros Hb. rewrite while_lines_eq. cbn zeta.
  destruct (indexOf_NL backlog) as [[_ ->]|(a & b & -> & _ & _)]; [reflexivity|].
  unfold noLF in Hb. rewrite occurs_app in Hb.
  apply orb_false_elim in Hb as [_ Hb]. discriminate.
Qed.

(** The loop hands the complete lines of the backlog over in order, until
    the backlog holds no line feed or the callback throws; the line that
    made it throw stays at the head of the backlog. *)
Lemma while_lines_hands backlog s :
  exists cut s' b' c,
    while_lines callback backlog s = (s', (b', c)) /\
    backlog = unlines cut +:+ b' /\ Forall noLF cut /\
    match c with
    | Normal _ => noLF b' /\ handLines callback cut s = (s', Normal tt)
    | Throw e =>
        exists l rest s0,
          b' = l +:+ NL +:+ rest /\ noLF l /\
          handLines callback cut s = (s0, Normal tt) /\
          callback l s0 = (s', Throw e)
    end.
Proof.
  remember (String.length backlog) as k eqn:Hk. revert backlog s Hk.
  induction k as [k IH] using lt_wf_ind. intros backlog s ->.
  destruct (indexOf_NL backlog) as [[Hno _]|(a & b & -> & Ha & _)].
  - exists [], s, backlog, (Normal tt). rewrite while_lines_done by exact Hno.
    repeat split; [constructor | exact Hno].
  - rewrite while_lines_step by exact Ha.
    destruct (callback a s) as [s1 [[]|e]] eqn:Hcb.
    + destruct (IH (String.length b)) with (backlog := b) (s := s1)
        as (cut & s' & b' & c & Hrun & Hb & Hcut & Hc); [|reflexivity|].
      { pose proof (len_app a (NL +:+ b)) as H1.
        pose proof (len_app NL b) as H2. unfold len in H1, H2.
        change (String.length NL) with 1%nat in H2. lia. }
      exists (a :: cut), s', b', c. rewrite Hrun.
      split; [reflexivity|]. split.
      { rewrite Hb at 1. simpl. rewrite !str_app_assoc. reflexivity. }
      split; [constructor; assumption|].
      destruct c as [[]|e].
      * destruct Hc as [Hb' Hh]. split; [exact Hb'|].
        simpl. unfold bind. rewrite Hcb. exact Hh.
      * destruct Hc as (l & rest & s0 & -> & Hl & Hh & Hthrow).
        exists l, rest, s0. repeat split; try assumption.
        simpl. unfold bind. rewrite Hcb. exact Hh.
    + exists [], s1, (a +:+ NL +:+ b), (Throw e).
      split; [reflexivity|]. split; [reflexivity|]. split; [constructor|].
      exists a, b, s. repeat split; [exact Ha | exact Hcb].
Qed.

End HandingFacts.

(** X1. Whatever the callback does, a chunk makes the framer cut the text
    it holds (backlog and chunk) into complete lines and a remainder,
    without losing or reordering any of it, and hand the lines to the
    callback in order.  When every call returns, the remainder left as
    backlog holds no line feed; when a call throws, the lines before it
    have been handed over, and the backlog still starts with the line that
    made the callback throw. *)
Theorem onData_hands_lines {St : Type} (callback : string -> JS St unit)
    (backlog data : string) (s : St) :
  exists cut s' backlog' c,
    onData callback backlog data s = (s', (backlog', c)) /\
    backlog +:+ data = unlines cut +:+ backlog' /\
    Forall (fun l => occurs LF l = false) cut /\
    match c with
    | Normal _ =>
        occurs LF backlog' = false /\
        handLines callback cut s = (s', Normal tt)
    | Throw e =>
        exists l rest s0,
          backlog' = l +:+ NL +:+ rest /\ occurs LF l = false /\
          handLines callback cut s = (s0, Normal tt) /\
          callback l s0 = (s', Throw e)
    end.
Proof. unfold onData. apply while_lines_hands. Qed.

(** ** What the listener makes of a value *)

Section VerdictFacts.

Lemma emitReady_verdict v d :
  emitReady v d =
  match verdict v with
  | Unsafe => (d, Throw TypeError)
  | Fires address =>
      (stop_listening (with_emitted d [Ready address]), Normal tt)
  | Fails payload =>
      if error_listener d
      then (with_emitted d [Failure payload; Kill 1], Normal tt)
      else (with_emitted d [Failure payload], Throw (UnhandledError payload))
  | Idle => (d, Normal tt)
  end.
Proof.
  pose proof (fun payload => failure_branch payload d) as Hfail.
  destruct v as [| | | | |props]; try reflexivity.
  unfold verdict, emitReady, getProp, callStartsWith, callIncludes.
  unfold bind, ret in Hfail |- *.
  destruct (lookupProp "source" props) as [[| | |source| |]|]; try reflexivity.
  destruct (lookupProp "msg" props) as [[| | |msg|items|]|];
    destruct (startsWith source ready_source_marker); cbn [andb];
    try reflexivity.
  - destruct (startsWith msg ready_msg_marker).
    + js_run. reflexivity.
    + destruct (includes msg failure_marker); [apply Hfail | reflexivity].
  - destruct (includes msg failure_marker); [apply Hfail | reflexivity].
  - destruct (existsb (isStr failure_marker) items); [apply Hfail | reflexivity].
Qed.

Lemma emitData_verdict v d :
  emitData v d =
  if listening d
  then match verdict v with
       | Unsafe => (with_emitted d [Data v], Throw TypeError)
       | Fires address =>
           (stop_listening (with_emitted d [Data v; Ready address]), Normal tt)
       | Fails payload =>
           if error_listener d
           then (with_emitted d [Data v; Failure payload; Kill 1], Normal tt)
           else (with_emitted d [Data v; Failure payload],
                 Throw (UnhandledError payload))
       | Idle => (with_emitted d [Data v], Normal tt)
       end
  else (with_emitted d [Data v], Normal tt).
Proof.
  rewrite emitData_eq, emitReady_verdict.
  destruct (listening d); [|reflexivity].
  destruct (verdict v); rewrite ?with_emitted_app; reflexivity.
Qed.

Lemma verdict_synthetic time l :
  verdict (synthetic time l) =
  if includes l failure_marker then Fails (Some (JStr l)) else Idle.
Proof. reflexivity. Qed.

Lemma verdict_handlerSafe v :
  handlerSafe v = match verdict v with Unsafe => false | _ => true end.
Proof.
  destruct v as [| | | | |props]; try reflexivity.
  unfold handlerSafe, verdict.
  destruct (lookupProp "source" props) as [[| | |source| |]|]; try reflexivity.
  destruct (lookupProp "msg" props) as [[| | |msg|items|]|]; try reflexivity.
  - destruct (startsWith source ready_source_marker && startsWith msg ready_msg_marker);
      [reflexivity|]. destruct (includes msg failure_marker); reflexivity.
  - destruct (startsWith source ready_source_marker); [reflexivity|].
    cbn [negb]. destruct (existsb (isStr failure_marker) items); reflexivity.
Qed.

End VerdictFacts.

(** X2. The listener on every value: [emitReady] is decided by the value
    and by whether somebody listens to ['error'].  It throws a [TypeError]
    before any effect when a read or call is not defined; on the ready
    branch it takes itself off ['data'] and emits the ready signal; on the
    failure branch it emits the failure signal and then calls [kill(1)], or
    throws out of the emission with no [kill] when nobody listens to
    ['error'], and stays registered either way; otherwise it does
    nothing. *)
Theorem listener_verdict (v : json) (d : Daemon) :
  emitReady v d =
  match verdict v with
  | Unsafe => (d, Throw TypeError)
  | Fires address =>
      (mkDaemon false (error_listener d) (emitted d ++ [Ready address])
                (stdout_backlog d) (stderr_backlog d) (clock d),
       Normal tt)
  | Fails payload =>
      if error_listener d
      then (mkDaemon (listening d) true (emitted d ++ [Failure payload; Kill 1])
                     (stdout_backlog d) (stderr_backlog d) (clock d),
            Normal tt)
      else (mkDaemon (listening d) false (emitted d ++ [Failure payload])
                     (stdout_backlog d) (stderr_backlog d) (clock d),
            Throw (UnhandledError payload))
  | Idle => (d, Normal tt)
  end.
Proof.
  rewrite emitReady_verdict. destruct (verdict v); try reflexivity.
  destruct (error_listener d) eqn:He; unfold with_emitted; rewrite He;
    reflexivity.
Qed.

(** ** The calls made on a daemon handle *)

Section PreservedFacts.
Context {St : Type}.
Variable callback : string -> JS St unit.
Variable P : St -> Prop.
Hypothesis callback_keeps : forall l s, P s -> P (fst (callback l s)).

Lemma handLines_keeps ls s : P s -> P (fst (handLines callback ls s)).
Proof using callback_keeps.
  revert s. induction ls as [|l ls IH]; intros s Hs; simpl; [exact Hs|].
  unfold bind. pose proof (callback_keeps l s Hs) as H1.
  destruct (callback l s) as [s1 [[]|e]]; simpl in *; [apply IH|]; exact H1.
Qed.

Lemma while_lines_keeps backlog s :
  P s -> P (fst (while_lines callback backlog s)).
Proof using callback_keeps.
  intros Hs.
  destruct (while_lines_hands callback backlog s)
    as (cut & s' & b' & c & -> & _ & _ & Hc).
  simpl. pose proof (handLines_keeps cut s Hs) as Hcut.
  destruct c as [[]|e].
  - destruct Hc as [_ Hh]. rewrite Hh in Hcut. exact Hcut.
  - destruct Hc as (l & rest & s0 & _ & _ & Hh & Hthrow).
    rewrite Hh in Hcut. simpl in Hcut.
    pose proof (callback_keeps l s0 Hcut) as H1. rewrite Hthrow in H1. exact H1.
Qed.

End PreservedFacts.

(** A property of the handle that publishing a value, reading the clock
    and storing a backlog keep is kept by every run of the two streams. *)
Section DaemonInvariant.
Variable JSON_parse : string -> option json.
Variable Date_toJSON : nat -> string.
Variable P : Daemon -> Prop.
Hypothesis P_emitData : forall v d, P d -> P (fst (emitData v d)).
Hypothesis P_tick : forall d, P d -> P (tick d).
Hypothesis P_backlog : forall i b d, P d -> P (set_backlog i b d).

Lemma jsonLogEmmit_keeps l d :
  P d -> P (fst (jsonLogEmmit JSON_parse Date_toJSON l d)).
Proof using P_emitData P_tick.
  intros Hd. unfold jsonLogEmmit, bind, rcdJsonParser.
  destruct (JSON_parse l) as [v|]; cbn [ret].
  - apply P_emitData. exact Hd.
  - unfold bind, now. apply P_emitData. apply (P_tick d Hd).
Qed.

Lemma deliver_keeps i ev d :
  P d -> P (fst (deliver JSON_parse Date_toJSON i ev d)).
Proof using P_emitData P_tick P_backlog.
  intros Hd. destruct ev as [data|]; unfold deliver.
  - unfold onData.
    pose proof (while_lines_keeps (jsonLogEmmit JSON_parse Date_toJSON) P
                  jsonLogEmmit_keeps (backlog_of d i +:+ data) d Hd) as H.
    destruct (while_lines _ _ d) as [d' [b' c]]. simpl in *.
    apply P_backlog. exact H.
  - unfold onEnd. destruct (truthy (backlog_of d i)); [|exact Hd].
    apply jsonLogEmmit_keeps. exact Hd.
Qed.

Lemma deliverAll_keeps evs d :
  P d -> P (fst (deliverAll JSON_parse Date_toJSON evs d)).
Proof using P_emitData P_tick P_backlog.
  revert d. induction evs as [|[i ev] evs IH]; intros d Hd; simpl; [exact Hd|].
  unfold bind. pose proof (deliver_keeps i ev d Hd) as H.
  destruct (deliver JSON_parse Date_toJSON i ev d) as [d1 [[]|e]]; simpl in *;
    [apply IH|]; exact H.
Qed.

End DaemonInvariant.

Section TraceFacts.

Lemma waitingTrace_app a b :
  waitingTrace a = true -> waitingTrace (a ++ b) = waitingTrace b.
Proof.
  enough (forall a,
            (waitingTrace a = true -> waitingTrace (a ++ b) = waitingTrace b) /\
            (forall x, waitingTrace (x :: a) = true ->
                       waitingTrace ((x :: a) ++ b) = waitingTrace b)) as H
    by apply H.
  clear a. induction a as [|y a [IH1 IH2]].
  - split; [reflexivity|]. intros [| | |]; simpl; try discriminate. reflexivity.
  - split; [apply IH2|].
    intros [| | |] Hx; simpl in *; try discriminate.
    + apply IH2. exact Hx.
    + destruct y as [| | |sig]; try discriminate.
      destruct sig as [|[| |]|]; try discriminate. apply IH1. exact Hx.
Qed.

Lemma orderlyTrace_app a b :
  waitingTrace a = true -> orderlyTrace (a ++ b) = orderlyTrace b.
Proof.
  enough (forall a,
            (waitingTrace a = true -> orderlyTrace (a ++ b) = orderlyTrace b) /\
            (forall x, waitingTrace (x :: a) = true ->
                       orderlyTrace ((x :: a) ++ b) = orderlyTrace b)) as H
    by apply H.
  clear a. induction a as [|y a [IH1 IH2]].
  - split; [reflexivity|]. intros [| | |]; simpl; try discriminate. reflexivity.
  - split; [apply IH2|].
    intros [| | |] Hx; simpl in *; try discriminate.
    + apply IH2. exact Hx.
    + destruct y as [| | |sig]; try discriminate.
      destruct sig as [|[| |]|]; try discriminate. apply IH1. exact Hx.
Qed.

Lemma waitingTrace_no_ready a : waitingTrace a = true -> readyPayloads a = [].
Proof.
  enough (forall a,
            (waitingTrace a = true -> readyPayloads a = []) /\
            (forall x, waitingTrace (x :: a) = true ->
                       readyPayloads (x :: a) = [])) as H by apply H.
  clear a. induction a as [|y a [IH1 IH2]].
  - split; [reflexivity|]. intros [| | |]; simpl; try discriminate. reflexivity.
  - split; [apply IH2|].
    intros [| | |] Hx; simpl in *; try discriminate.
    + apply IH2. exact Hx.
    + destruct y as [| | |sig]; try discriminate.
      destruct sig as [|[| |]|]; try discriminate. apply IH1. exact Hx.
Qed.

Lemma forallb_isData values : forallb isData (map Data values) = true.
Proof. induction values; simpl; auto. Qed.

Lemma filter_isKill_Data vs : List.filter isKill (map Data vs) = [].
Proof. induction vs; simpl; auto. Qed.

(** The place of the one ready signal in a sequence of calls. *)
Lemma ready_place w a t pre a' post :
  readyPayloads w = [] -> readyPayloads t = [] ->
  w ++ Ready a :: t = pre ++ Ready a' :: post ->
  pre = w /\ a' = a /\ post = t.
Proof.
  intros Hw Ht. revert pre.
  induction w as [|x w IH]; intros [|y pre] E; simpl in E.
  - injection E as -> ->. auto.
  - injection E as <- ->. rewrite readyPayloads_app in Ht. simpl in Ht.
    destruct (readyPayloads pre); discriminate.
  - injection E as -> _. simpl in Hw. discriminate.
  - injection E as -> E.
    assert (readyPayloads w = []) as Hw'.
    { destruct y; simpl in Hw; try exact Hw. discriminate. }
    destruct (IH Hw' pre E) as (-> & -> & ->). auto.
Qed.

Lemma emitData_settled v d : settled d -> settled (fst (emitData v d)).
Proof.
  intros (w & Hw & Hd). rewrite emitData_verdict.
  destruct Hd as [[Hl He]|(Hl & a & values & He)]; rewrite Hl.
  - destruct (verdict v) as [|address|payload|].
    + exists (w ++ [Data v]). rewrite readyPayloads_app, Hw.
      split; [reflexivity|]. left. simpl. rewrite He. auto.
    + exists (w ++ [Data v]). rewrite readyPayloads_app, Hw.
      split; [reflexivity|]. right. split; [reflexivity|].
      exists address, []. simpl. rewrite He, <- List.app_assoc. reflexivity.
    + destruct (error_listener d).
      * exists (w ++ [Data v; Failure payload; Kill 1]).
        rewrite readyPayloads_app, Hw.
        split; [reflexivity|]. left. simpl. rewrite He. auto.
      * exists (w ++ [Data v; Failure payload]).
        rewrite readyPayloads_app, Hw.
        split; [reflexivity|]. left. simpl. rewrite He. auto.
    + exists (w ++ [Data v]). rewrite readyPayloads_app, Hw.
      split; [reflexivity|]. left. simpl. rewrite He. auto.
  - exists w. split; [exact Hw|]. right. split; [exact Hl|].
    exists a, (values ++ [v]). simpl. rewrite He, map_app.
    rewrite <- List.app_assoc. reflexivity.
Qed.

Lemma emitData_settledAttended v d :
  settledAttended d -> settledAttended (fst (emitData v d)).
Proof.
  intros (Herr & w & Hw & Hd). rewrite emitData_verdict, Herr.
  destruct Hd as [[Hl He]|(Hl & a & values & He)]; rewrite Hl.
  - destruct (verdict v) as [|address|payload|]; (split; [exact Herr|]).
    + exists (w ++ [Data v]). rewrite waitingTrace_app by exact Hw.
      split; [reflexivity|]. left. simpl. rewrite He. auto.
    + exists (w ++ [Data v]). rewrite waitingTrace_app by exact Hw.
      split; [reflexivity|]. right. split; [reflexivity|].
      exists address, []. simpl. rewrite He, <- List.app_assoc. reflexivity.
    + exists (w ++ [Data v; Failure payload; Kill 1]).
      rewrite waitingTrace_app by exact Hw.
      split; [reflexivity|]. left. simpl. rewrite He. auto.
    + exists (w ++ [Data v]). rewrite waitingTrace_app by exact Hw.
      split; [reflexivity|]. left. simpl. rewrite He. auto.
  - split; [exact Herr|]. exists w. split; [exact Hw|]. right.
    split; [exact Hl|].
    exists a, (values ++ [v]). simpl. rewrite He, map_app.
    rewrite <- List.app_assoc. reflexivity.
Qed.

Lemma emitData_unkilled v d : unkilled d -> unkilled (fst (emitData v d)).
Proof.
  intros [Herr Hk]. rewrite emitData_verdict, Herr.
  destruct (listening d); [destruct (verdict v)|];
    (split; [exact Herr|]); simpl; rewrite List.filter_app, Hk; reflexivity.
Qed.

End TraceFacts.

(** X3. Whatever the two output streams deliver, in whatever order,
    whatever [JSON.parse] makes of the lines, and whether or not the caller
    listens to ['error'], the ready signal is emitted at most once: it has
    been emitted exactly when the listener is no longer registered, and
    after it the handle sees nothing but ['data'] emissions. *)
Theorem supervisor_ready_at_most_once
    (JSON_parse : string -> option json) (Date_toJSON : nat -> string)
    (attends : bool) (evs : list (StreamId * StreamEvent)) :
  let d := fst (deliverAll JSON_parse Date_toJSON evs
                  (if attends then attended else started)) in
  List.length (readyPayloads (emitted d)) = (if listening d then 0 else 1)%nat /\
  forall pre address post,
    emitted d = pre ++ Ready address :: post ->
    readyPayloads pre = [] /\ forallb isData post = true.
Proof.
  intros d.
  assert (settled d) as (w & Hw & Hd).
  { apply deliverAll_keeps.
    - apply emitData_settled.
    - intros d0 H. exact H.
    - intros i b d0 H. destruct i; exact H.
    - exists []. split; [reflexivity|]. left. destruct attends; split; reflexivity. }
  destruct Hd as [[-> ->]|(-> & a & values & ->)].
  - rewrite Hw. split; [reflexivity|].
    intros pre address post E. exfalso.
    rewrite E, readyPayloads_app in Hw. simpl in Hw.
    destruct (readyPayloads pre); discriminate.
  - split.
    + rewrite readyPayloads_app, Hw. simpl. rewrite readyPayloads_Data. reflexivity.
    + intros pre address post E.
      destruct (ready_place w a (map Data values) pre address post Hw
                  (readyPayloads_Data values) E) as (-> & _ & ->).
      split; [exact Hw | apply forallb_isData].
Qed.

(** X4. On a handle whose caller listens to ['error'], whatever the two
    streams deliver, the calls made keep one form: every failure signal is
    followed at once by [kill(1)], no [kill] occurs otherwise, and after
    the ready signal nothing but ['data'] emissions follow. *)
Theorem attended_trace_orderly
    (JSON_parse : string -> option json) (Date_toJSON : nat -> string)
    (evs : list (StreamId * StreamEvent)) :
  orderlyTrace
    (emitted (fst (deliverAll JSON_parse Date_toJSON evs attended))) = true.
Proof.
  assert (settledAttended (fst (deliverAll JSON_parse Date_toJSON evs attended)))
    as (_ & w & Hw & Hd).
  { apply deliverAll_keeps.
    - apply emitData_settledAttended.
    - intros d0 H. exact H.
    - intros i b d0 H. destruct i; exact H.
    - split; [reflexivity|]. exists []. split; [reflexivity|].
      left. split; reflexivity. }
  destruct Hd as [[_ ->]|(_ & a & values & ->)].
  - rewrite <- (List.app_nil_r w), orderlyTrace_app by exact Hw. reflexivity.
  - rewrite orderlyTrace_app by exact Hw. simpl. apply forallb_isData.
Qed.

(** X5. On the handle as [rcd] returns it, for as long as nobody listens
    to ['error'], the supervisor never calls [kill]: whatever the two
    streams deliver, no [kill] is among the calls made. *)
Theorem unattended_never_kills
    (JSON_parse : string -> option json) (Date_toJSON : nat -> string)
    (evs : list (StreamId * StreamEvent)) :
  List.filter isKill
    (emitted (fst (deliverAll JSON_parse Date_toJSON evs started))) = [].
Proof.
  assert (unkilled (fst (deliverAll JSON_parse Date_toJSON evs started)))
    as [_ H].
  { apply deliverAll_keeps.
    - apply emitData_unkilled.
    - intros d0 H. exact H.
    - intros i b d0 H. destruct i; exact H.
    - split; reflexivity. }
  exact H.
Qed.

(** ** A line that makes the listener throw *)

Section StuckFacts.
Variable JSON_parse : string -> option json.
Variable Date_toJSON : nat -> string.

Lemma jsonLogEmmit_eq l d :
  jsonLogEmmit JSON_parse Date_toJSON l d =
  match JSON_parse l with
  | Some v => emitData v d
  | None => emitData (synthetic (Date_toJSON (clock d)) l) (tick d)
  end.
Proof.
  unfold jsonLogEmmit, bind, rcdJsonParser.
  destruct (JSON_parse l); reflexivity.
Qed.

Lemma backlog_of_set i b d : backlog_of (set_backlog i b d) i = b.
Proof. destruct i; reflexivity. Qed.

(** When the callback of the framers throws and when it does not. *)
Lemma jsonLogEmmit_outcome l d :
  exists v,
    (JSON_parse l = Some v \/
     JSON_parse l = None /\ v = synthetic (Date_toJSON (clock d)) l) /\
    let d0 := match JSON_parse l with Some _ => d | None => tick d end in
    jsonLogEmmit JSON_parse Date_toJSON l d =
    if listening d
    then match lineVerdict JSON_parse l with
         | Unsafe => (with_emitted d0 [Data v], Throw TypeError)
         | Fires address =>
             (stop_listening (with_emitted d0 [Data v; Ready address]), Normal tt)
         | Fails payload =>
             if error_listener d
             then (with_emitted d0 [Data v; Failure payload; Kill 1], Normal tt)
             else (with_emitted d0 [Data v; Failure payload],
                   Throw (UnhandledError payload))
         | Idle => (with_emitted d0 [Data v], Normal tt)
         end
    else (with_emitted d0 [Data v], Normal tt).
Proof.
  rewrite jsonLogEmmit_eq. unfold lineVerdict.
  destruct (JSON_parse l) as [v|].
  - exists v. split; [left; reflexivity|]. apply emitData_verdict.
  - exists (synthetic (Date_toJSON (clock d)) l).
    split; [right; split; reflexivity|].
    rewrite emitData_verdict. reflexivity.
Qed.

Lemma jsonLogEmmit_throws l d d1 e :
  jsonLogEmmit JSON_parse Date_toJSON l d = (d1, Throw e) ->
  listening d = true /\ listening d1 = true /\
  error_listener d1 = error_listener d /\
  ((lineVerdict JSON_parse l = Unsafe /\ e = TypeError) \/
   (error_listener d = false /\
    lineVerdict JSON_parse l = Fails match e with
                                     | UnhandledError payload => payload
                                     | _ => None
                                     end /\
    exists payload, e = UnhandledError payload)).
Proof.
  destruct (jsonLogEmmit_outcome l d) as (v & _ & ->). cbn zeta.
  destruct (listening d) eqn:Hl; [|discriminate].
  destruct (lineVerdict JSON_parse l) as [|address|payload|];
    try discriminate.
  - intros H. injection H as <- <-.
    destruct (JSON_parse l); cbn; rewrite Hl;
      (split; [reflexivity|]); (split; [reflexivity|]);
      (split; [reflexivity|]); left; split; reflexivity.
  - destruct (error_listener d) eqn:He; [discriminate|].
    intros H. injection H as <- <-.
    destruct (JSON_parse l); cbn; rewrite Hl, He;
      (split; [reflexivity|]); (split; [reflexivity|]);
      (split; [reflexivity|]); right; eauto.
Qed.





End StuckFacts.



(** ** Lines published by a chunk *)

Section PublishFacts.
Variable JSON_parse : string -> option json.
Variable Date_toJSON : nat -> string.

Lemma dataOf_app a b : dataOf (a ++ b) = dataOf a ++ dataOf b.
Proof. apply omap_app. Qed.

Lemma splitChar_unlines_text ls t :
  Forall noLF ls -> splitChar LF (unlines ls +:+ t) = ls ++ splitChar LF t.
Proof.
  unfold splitChar. induction 1 as [|l ls Hl Hls IH]; [reflexivity|].
  simpl unlines. rewrite !str_app_assoc, splitChar_aux_noLF by exact Hl.
  change (NL +:+ unlines ls +:+ t) with (String LF (unlines ls +:+ t)).
  simpl. rewrite IH. reflexivity.
Qed.

Lemma splitChar_aux_nonempty c s cur : splitChar_aux c s cur <> [].
Proof.
  revert cur. induction s as [|a s IH]; intros cur; simpl; [discriminate|].
  destruct (Ascii.eqb a c); [discriminate | apply IH].
Qed.

(** Publishing a value on which the listener returns. *)
Lemma emitData_quiet v d :
  (listening d = true ->
   match verdict v with
   | Unsafe => false
   | Fails _ => error_listener d
   | _ => true
   end = true) ->
  exists d1,
    emitData v d = (d1, Normal tt) /\
    dataOf (emitted d1) = dataOf (emitted d) ++ [v] /\
    clock d1 = clock d /\
    stdout_backlog d1 = stdout_backlog d /\
    stderr_backlog d1 = stderr_backlog d /\
    error_listener d1 = error_listener d /\
    (listening d1 = true -> listening d = true).
Proof.
  intros Hquiet. rewrite emitData_verdict.
  destruct (listening d) eqn:Hl.
  - specialize (Hquiet eq_refl).
    destruct (verdict v) as [|address|payload|]; try discriminate;
      rewrite ?Hquiet; eexists; (split; [reflexivity|]);
      cbn [emitted stop_listening with_emitted clock stdout_backlog
           stderr_backlog error_listener listening];
      rewrite dataOf_app; repeat split; auto; reflexivity.
  - eexists. split; [reflexivity|].
    cbn [emitted stop_listening with_emitted clock stdout_backlog
         stderr_backlog error_listener listening].
    rewrite dataOf_app. repeat split; auto; try reflexivity; congruence.
Qed.

(** What one line does to the handle when the listener is gone or goes
    through on its value. *)
Lemma jsonLogEmmit_publishes l d :
  (listening d = true -> quietLine JSON_parse (error_listener d) l = true) ->
  exists d1,
    jsonLogEmmit JSON_parse Date_toJSON l d = (d1, Normal tt) /\
    dataOf (emitted d1) =
      dataOf (emitted d) ++ parsedFrom JSON_parse Date_toJSON (clock d) [l] /\
    clock d1 = (match JSON_parse l with Some _ => clock d | None => S (clock d) end) /\
    stdout_backlog d1 = stdout_backlog d /\
    stderr_backlog d1 = stderr_backlog d /\
    error_listener d1 = error_listener d /\
    (listening d1 = true -> listening d = true).
Proof.
  intros Hquiet. rewrite jsonLogEmmit_eq. cbn [parsedFrom].
  unfold quietLine, lineVerdict in Hquiet.
  destruct (JSON_parse l) as [v|].
  - apply emitData_quiet. exact Hquiet.
  - apply (emitData_quiet (synthetic (Date_toJSON (clock d)) l) (tick d)).
    exact Hquiet.
Qed.

Lemma handLines_publishes ls d :
  (listening d = true ->
   Forall (fun l => quietLine JSON_parse (error_listener d) l = true) ls) ->
  exists d',
    handLines (jsonLogEmmit JSON_parse Date_toJSON) ls d = (d', Normal tt) /\
    dataOf (emitted d') =
      dataOf (emitted d) ++ parsedFrom JSON_parse Date_toJSON (clock d) ls /\
    stdout_backlog d' = stdout_backlog d /\
    stderr_backlog d' = stderr_backlog d /\
    error_listener d' = error_listener d /\
    (listening d' = true -> listening d = true).
Proof.
  revert d. induction ls as [|l ls IH]; intros d Hsafe.
  - exists d. simpl. rewrite List.app_nil_r. auto 10.
  - destruct (jsonLogEmmit_publishes l d)
      as (d1 & Hrun & Hdata & Hclock & Hout & Herr & Hel & Hlisten).
    { intros Hl. specialize (Hsafe Hl). inversion Hsafe; assumption. }
    destruct (IH d1) as (d' & Hrun' & Hdata' & Hout' & Herr' & Hel' & Hlisten').
    { intros Hl. specialize (Hsafe (Hlisten Hl)). rewrite Hel.
      inversion Hsafe; assumption. }
    exists d'. simpl handLines. unfold bind. rewrite Hrun, Hrun'.
    split; [reflexivity|]. split.
    { rewrite Hdata', Hdata, <- List.app_assoc. f_equal.
      cbn [parsedFrom]. rewrite Hclock.
      destruct (JSON_parse l); reflexivity. }
    repeat split; try congruence. auto.
Qed.

End PublishFacts.

(** X7. A chunk never makes the supervisor throw when the listener is
    gone, or when each of its complete lines has a value the listener can
    read and none is a failure line nobody listens to.  It then publishes
    exactly those lines, each once and in order, parsed or wrapped with the
    clock's successive readings; the unterminated rest becomes the
    stream's backlog and the other stream's backlog is untouched. *)
Theorem chunk_publishes_lines
    (JSON_parse : string -> option json) (Date_toJSON : nat -> string)
    (i : StreamId) (data : string) (d : Daemon) :
  let pieces := splitChar LF (backlog_of d i +:+ data) in
  (listening d = true ->
   Forall (fun l => quietLine JSON_parse (error_listener d) l = true)
          (removelast pieces)) ->
  exists d',
    deliver JSON_parse Date_toJSON i (Chunk data) d = (d', Normal tt) /\
    dataOf (emitted d') =
      dataOf (emitted d) ++
      parsedFrom JSON_parse Date_toJSON (clock d) (removelast pieces) /\
    backlog_of d' i = default EmptyString (last pieces) /\
    forall j, j <> i -> backlog_of d' j = backlog_of d j.
Proof.
  intros pieces Hsafe. unfold deliver, onData.
  destruct (while_lines_hands (jsonLogEmmit JSON_parse Date_toJSON)
              (backlog_of d i +:+ data) d)
    as (cut & s' & b' & c & Hrun & Htext & Hcut & Hc).
  rewrite Hrun. subst pieces. rewrite Htext in Hsafe |- *.
  destruct c as [[]|e].
  - destruct Hc as [Hb' Hh].
    rewrite splitChar_lines in Hsafe |- * by assumption.
    rewrite removelast_last in Hsafe |- *. rewrite last_snoc.
    destruct (handLines_publishes JSON_parse Date_toJSON cut d Hsafe)
      as (d' & Hrun' & Hdata & Hout & Herr & _).
    rewrite Hrun' in Hh. injection Hh as <-.
    eexists. split; [reflexivity|]. split.
    { destruct i; exact Hdata. }
    split; [apply backlog_of_set|].
    intros j Hj. destruct i, j; try congruence; simpl; assumption.
  - exfalso. destruct Hc as (l & rest & s0 & -> & Hl & Hh & Hthrow).
    rewrite splitChar_unlines_text in Hsafe by exact Hcut.
    assert (splitChar LF (l +:+ NL +:+ rest) = l :: splitChar LF rest) as Hsplit.
    { unfold splitChar. rewrite splitChar_aux_noLF by exact Hl.
      change (NL +:+ rest) with (String LF rest). simpl. reflexivity. }
    rewrite Hsplit in Hsafe.
    assert (removelast (cut ++ l :: splitChar LF rest) =
            cut ++ l :: removelast (splitChar LF rest)) as Hrl.
    { rewrite removelast_app by discriminate. simpl.
      destruct (splitChar LF rest) eqn:E; [|reflexivity].
      exfalso. exact (splitChar_aux_nonempty _ _ _ E). }
    rewrite Hrl in Hsafe.
    destruct (jsonLogEmmit_throws _ _ _ _ _ _ Hthrow)
      as (Hlisten & _ & _ & Hv).
    destruct (handLines_publishes JSON_parse Date_toJSON cut d)
      as (d' & Hrun' & _ & _ & _ & Hel & Hmono).
    { intros Hl0. specialize (Hsafe Hl0).
      apply Forall_app in Hsafe as [Hs _]. exact Hs. }
    rewrite Hrun' in Hh. injection Hh as <-.
    specialize (Hsafe (Hmono Hlisten)).
    apply Forall_app in Hsafe as [_ Hs]. inversion Hs as [|? ? Hsl _]; subst.
    unfold quietLine in Hsl.
    destruct Hv as [[Hv _]|(He & Hv & _)]; rewrite Hv in Hsl;
      [discriminate|]. congruence.
Qed.

(** A notice and a line that is no JSON, then the start of a third line. *)
Lemma chunk_publishes_lines_witness :
  let text := Ref.dq "{'level':'notice','msg':'hello','source':'x','time':'t'}" in
  exists d',
    deliver Ref.JSON_parse (fun n => if Nat.eqb n 0 then "t0" else "t1") Stderr
            (Chunk (text +:+ NL +:+ "panic: something bad" +:+ NL +:+ "{'lev"))
            started = (d', Normal tt) /\
    dataOf (emitted d') =
      [JObj [("level", JStr "notice"); ("msg", JStr "hello");
             ("source", JStr "x"); ("time", JStr "t")];
       JObj [("level", JStr "error"); ("source", JStr EmptyString);
             ("time", JStr "t0"); ("msg", JStr "panic: something bad")]] /\
    backlog_of d' Stderr = "{'lev".
Proof.
  intros text.
  destruct (chunk_publishes_lines Ref.JSON_parse
              (fun n => if Nat.eqb n 0 then "t0" else "t1") Stderr
              (text +:+ NL +:+ "panic: something bad" +:+ NL +:+ "{'lev")
              started) as (d' & Hrun & Hdata & Hback & _).
  { intros _.
    match goal with |- Forall _ ?L =>
      let L' := eval vm_compute in L in change L with L' end.
    repeat constructor; vm_compute; reflexivity. }
  exists d'. split; [exact Hrun|]. split; [|exact Hback].
  rewrite Hdata. vm_compute. reflexivity.
Defined.

(** ** Repeated failures, the address, and an array as message *)

Section SignalEdgeFacts.

Lemma publishAll_waiting_kills vs d :
  listening d = true -> error_listener d = true -> Forall shaped vs ->
  Forall (fun v => isReadyLine v = false) vs ->
  exists sgs,
    publishAll vs d = (with_emitted d sgs, Normal tt) /\
    List.length (List.filter isKill sgs) =
    List.length (List.filter isFailureLine vs).
Proof.
  intros Hl He Hs. revert d Hl He.
  induction Hs as [|v vs Hv Hs IH]; intros d Hl He Hn; simpl.
  - exists []. rewrite with_emitted_nil. split; reflexivity.
  - inversion Hn as [|? ? Hnv Hn']; subst.
    unfold bind. rewrite emitData_shaped by assumption. rewrite Hnv, He.
    destruct (isFailureLine v).
    + destruct (IH (with_emitted d [Data v; Failure (Some (JStr (msgOf v))); Kill 1]))
        as (sgs & -> & Hk); [exact Hl | exact He | exact Hn' |].
      eexists. rewrite with_emitted_app. split; [reflexivity|].
      simpl. rewrite Hk. reflexivity.
    + destruct (IH (with_emitted d [Data v])) as (sgs & -> & Hk);
        [exact Hl | exact He | exact Hn' |].
      eexists. rewrite with_emitted_app. split; [reflexivity|].
      simpl. exact Hk.
Qed.

End SignalEdgeFacts.

(** X8. The failure signal is not a one-time signal: over published log
    messages, on a handle whose caller listens to ['error'], the process is
    sent [kill(1)] once for every message before the first ready line that
    contains the failure marker (and does not itself match the ready
    pattern), and never after the ready line. *)
Theorem kill_per_failure_line (pre tail : list json) :
  Forall shaped pre ->
  Forall (fun v => isReadyLine v = false) pre ->
  (tail = [] \/
   exists v post, tail = v :: post /\ shaped v /\ isReadyLine v = true) ->
  List.length
    (List.filter isKill (emitted (fst (publishAll (pre ++ tail) attended)))) =
  List.length (List.filter isFailureLine pre).
Proof.
  intros Hs Hn Htail.
  destruct (publishAll_waiting_kills pre attended eq_refl eq_refl Hs Hn)
    as (sgs & Hrun & Hk).
  rewrite publishAll_app, Hrun.
  destruct Htail as [->|(v & post & -> & Hv & Hr)].
  - simpl. exact Hk.
  - simpl. unfold bind. rewrite emitData_shaped by (try reflexivity; exact Hv).
    rewrite Hr, publishAll_off by reflexivity.
    cbn [fst emitted with_emitted stop_listening attended on_error started].
    rewrite !List.filter_app, filter_isKill_Data, !List.length_app.
    simpl. rewrite Hk. lia.
Qed.

Lemma kill_per_failure_line_witness :
  List.length
    (List.filter isKill
       (emitted (fst (publishAll
          ([failure_notice; failure_notice] ++ [serving_line; failure_notice])
          attended)))) = 2%nat.
Proof.
  rewrite (kill_per_failure_line [failure_notice; failure_notice]
             [serving_line; failure_notice]).
  - reflexivity.
  - repeat constructor; eexists; reflexivity.
  - repeat constructor.
  - right. exists serving_line, [failure_notice].
    split; [reflexivity|]. split; [eexists; reflexivity | reflexivity].
Defined.

(** X9. The address published with the ready signal is the message text
    without its first 26 code units, whatever these are: a message made of
    any 26 code units followed by [address] yields [address], so the usual
    wording [Serving remote control on ] followed by the address yields the
    address, and a matching message of at most 26 code units yields the
    empty string. *)
Theorem ready_payload_drops_26 (v : json) (source msg : string) (d : Daemon) :
  logFields v = Some (source, msg) -> isReadyLine v = true ->
  listening d = true ->
  (forall lead address,
     msg = lead +:+ address -> String.length lead = 26%nat ->
     emitData v d =
     (stop_listening (with_emitted d [Data v; Ready (JStr address)]), Normal tt)) /\
  ((String.length msg <= 26)%nat ->
   emitData v d =
   (stop_listening (with_emitted d [Data v; Ready (JStr EmptyString)]), Normal tt)).
Proof.
  intros Hf Hr Hl.
  assert (emitData v d =
          (stop_listening (with_emitted d [Data v; Ready (JStr (slice1 msg 26))]),
           Normal tt)) as Hrun.
  { rewrite emitData_shaped by (try eexists; eassumption).
    rewrite Hr. unfold msgOf. rewrite Hf. reflexivity. }
  split.
  - intros lead address -> Hlen. rewrite Hrun.
    replace 26 with (len lead) by (unfold len; lia).
    rewrite slice1_tail. reflexivity.
  - intros Hlen. rewrite Hrun. do 4 f_equal.
    unfold slice1, clamp, len. destruct (Z.ltb_spec 26 0) as [|_]; [lia|].
    rewrite Z.min_r by lia.
    replace (Z.to_nat (Z.of_nat (String.length msg) -
                       Z.of_nat (String.length msg))) with 0%nat by lia.
    generalize (Z.to_nat (Z.of_nat (String.length msg))). clear.
    induction msg as [|c msg IH]; intros [|k]; simpl; auto.
Qed.

Lemma ready_payload_drops_26_witness :
  emitData serving_line started =
  (stop_listening
     (with_emitted started
        [Data serving_line; Ready (JStr "http://127.0.0.1:5572/")]),
   Normal tt).
Proof.
  destruct (ready_payload_drops_26 serving_line "rcserver/rcserver.go"
              "Serving remote control on http://127.0.0.1:5572/" started
              eq_refl eq_refl eq_refl) as [Hcut _].
  apply (Hcut "Serving remote control on " "http://127.0.0.1:5572/");
    reflexivity.
Defined.

(** X10. The failure test also accepts an array as [msg]: for an object
    whose [source] is a string not starting with the server's marker and
    whose [msg] is an array, the listener takes the failure branch, with
    the array itself as payload, exactly when one element of the array is
    the failure marker string; otherwise it does nothing. *)
Theorem failure_from_array_message
    (props : list (string * json)) (source : string) (items : list json)
    (d : Daemon) :
  lookupProp "source" props = Some (JStr source) ->
  startsWith source ready_source_marker = false ->
  lookupProp "msg" props = Some (JArr items) ->
  emitReady (JObj props) d =
  if existsb (isStr failure_marker) items
  then if error_listener d
       then (with_emitted d [Failure (Some (JArr items)); Kill 1], Normal tt)
       else (with_emitted d [Failure (Some (JArr items))],
             Throw (UnhandledError (Some (JArr items))))
  else (d, Normal tt).
Proof.
  intros Hs Hn Hm. rewrite emitReady_verdict. unfold verdict.
  rewrite Hs, Hm, Hn.
  destruct (existsb (isStr failure_marker) items); reflexivity.
Qed.

Lemma failure_from_array_message_witness :
  emitReady
    (JObj [("source", JStr "fs/operations");
           ("msg", JArr [JStr "Failed to start remote control:"])])
    attended =
  (with_emitted attended
     [Failure (Some (JArr [JStr "Failed to start remote control:"])); Kill 1],
   Normal tt).
Proof.
  apply (failure_from_array_message
           [("source", JStr "fs/operations");
            ("msg", JArr [JStr "Failed to start remote control:"])]
           "fs/operations" [JStr "Failed to start remote control:"] attended);
    reflexivity.
Defined.

(** ** What the driver reads from the output of the binary *)

Section OutputFacts.

Lemma trimEnd_keeps x c y : isSpace c = false -> trimEnd (x +:+ String c y) <> EmptyString.
Proof.
  intros Hc. induction x as [|a x IH].
  - rewrite str_app_nil_l. simpl. rewrite Hc.
    destruct (trimEnd y); discriminate.
  - rewrite str_app_cons. simpl.
    destruct (trimEnd (x +:+ String c y)); [contradiction | discriminate].
Qed.

Lemma trimEnd_app a b :
  trimEnd b <> EmptyString -> trimEnd (a +:+ b) = a +:+ trimEnd b.
Proof.
  intros Hb. induction a as [|c a IH]; [reflexivity|].
  rewrite !str_app_cons. simpl. rewrite IH.
  destruct (a +:+ trimEnd b) eqn:E; [|reflexivity].
  destruct a; [|discriminate]. rewrite str_app_nil_l in E. contradiction.
Qed.

(** The text of the output array [[null, stdout, stderr]], trimmed, when
    [stdout] holds a line feed: everything up to that line feed is kept,
    after the comma that stands for [null]. *)
Lemma trim_output front rest stderr :
  trim (arrayToString [None; Some (front +:+ String LF rest); Some stderr]) =
  ("," +:+ front) +:+ String LF (trimEnd (rest +:+ "," +:+ stderr)).
Proof.
  unfold arrayToString. cbn [map join].
  change (default EmptyString None) with EmptyString.
  change (default EmptyString (Some ?x)) with x.
  unfold trim. rewrite str_app_nil_l.
  change ("," +:+ (front +:+ String LF rest) +:+ "," +:+ stderr)
    with (String "," ((front +:+ String LF rest) +:+ "," +:+ stderr)).
  cbn [trimStart]. change (isSpace ",") with false. cbn iota.
  replace (String "," ((front +:+ String LF rest) +:+ "," +:+ stderr))
    with ((("," +:+ front) +:+ NL) +:+ (rest +:+ "," +:+ stderr)).
  - rewrite trimEnd_app by (apply (trimEnd_keeps rest "," stderr); reflexivity).
    rewrite str_app_assoc. reflexivity.
  - rewrite !str_app_assoc. reflexivity.
Qed.




End OutputFacts.



(** X12. The default configuration file is the second line of standard
    output, trimmed: when standard output starts with two lines, the result
    of [getConfigFile] without explicit path is the second of them without
    surrounding white space (a carriage return before the line feed
    included), whatever follows and whatever was written to standard
    error. *)
Theorem getConfigFile_reads_second_line
    (binary : string)
    (run_sync : string -> list string -> option (gmap string string) ->
                completion SpawnSyncReturns)
    (first second rest stderr : string) (h : Host) :
  run_sync binary ["config"; "file"] None =
    Normal (mkReturns
              (Some [None;
                     Some ((first +:+ String LF second) +:+ String LF rest);
                     Some stderr])) ->
  occurs LF first = false -> occurs LF second = false ->
  snd (getConfigFile binary None run_sync h) = Normal (trim second).
Proof.
  intros Hrun H1 H2. rewrite getConfigFile_eq, Hrun. cbn [snd]. do 2 f_equal.
  rewrite trim_output. rewrite <- str_app_assoc, str_app_assoc.
  unfold splitChar.
  rewrite (splitChar_aux_noLF ("," +:+ first))
    by (unfold noLF; rewrite occurs_app, H1; reflexivity).
  rewrite str_app_nil_l, str_app_cons. cbn [splitChar_aux].
  rewrite Ascii.eqb_refl.
  rewrite splitChar_aux_noLF by exact H2.
  cbn [splitChar_aux]. rewrite Ascii.eqb_refl. rewrite str_app_nil_l.
  change ((?a :: ?b :: ?l) !! 1%nat) with (Some b).
  destruct second; reflexivity.
Qed.

Lemma getConfigFile_reads_second_line_witness :
  snd (getConfigFile "rclone.exe" None
         (printing [None;
                    Some (("Configuration file is stored at:" +:+ String CR EmptyString
                           +:+ String LF ("C:/Users/u/rclone.conf" +:+ String CR EmptyString))
                          +:+ String LF EmptyString);
                    Some EmptyString])
         fresh_host) =
  Normal "C:/Users/u/rclone.conf".
Proof.
  rewrite (getConfigFile_reads_second_line "rclone.exe" _
             ("Configuration file is stored at:" +:+ String CR EmptyString)
             ("C:/Users/u/rclone.conf" +:+ String CR EmptyString)
             EmptyString EmptyString fresh_host);
    reflexivity.
Defined.

(** ** Starting the daemon *)

Section RcdFacts.
Variable binary : string.
Variable configFile : option string.
Variable run_sync :
  string -> list string -> option (gmap string string) ->
  completion SpawnSyncReturns.

(** [rcd], case by case on the resolution of the configuration file. *)
Lemma rcd_eq env h :
  rcd binary configFile run_sync env h =
  match getConfigFile binary configFile run_sync h with
  | (h1, Normal configPath) =>
      (mkHost (sync_calls h1)
              (spawned h1 ++
               [(binary, ["rcd"],
                 mkOptions false false true "pipe" (rcdEnv configPath env))]),
       Normal started)
  | (h1, Throw e) => (h1, Throw e)
  end.
Proof.
  unfold rcd, bind.
  destruct (getConfigFile binary configFile run_sync h) as [h1 [p|e]];
    reflexivity.
Qed.

End RcdFacts.


(** ** Locating the binary *)

(** X14. Constructing a driver touches the file system only for a
    non-empty binary path: without one the binary is the platform's name,
    [rclone.exe] on [win32] and [rclone] elsewhere.  With one, construction
    throws [Path: <path> does not exist] when the path does not exist,
    passes on what [lstatSync] throws, and otherwise takes the path itself
    for a file and the path joined with the platform's name for a
    directory.  The configuration file is stored as given. *)
Theorem rcloneDriver_cases
    (platform : string) (existsSync : string -> bool)
    (lstat_isDirectory : string -> completion bool)
    (path_join : string -> string -> string)
    (binaryPath configFile : option string) :
  let name := if String.eqb platform "win32" then "rclone.exe" else "rclone" in
  rcloneDriver platform existsSync lstat_isDirectory path_join
               binaryPath configFile =
  match binaryPath with
  | Some (String c p) =>
      let path := String c p in
      if existsSync path then
        match lstat_isDirectory path with
        | Normal true => Normal (mkDriver (path_join path name) configFile)
        | Normal false => Normal (mkDriver path configFile)
        | Throw e => Throw e
        end
      else Throw (Error ("Path: " +:+ path +:+ " does not exist"))
  | _ => Normal (mkDriver name configFile)
  end.
Proof.
  unfold rcloneDriver, getRcloneBinary, platformBinaryName.
  destruct binaryPath as [[|c p]|]; try reflexivity.
  cbn [truthy]. destruct (existsSync (String c p)); [|reflexivity].
  destruct (lstat_isDirectory (String c p)) as [[]|e]; reflexivity.
Qed.

Section DriverInvariant.
Variable devNull : string.
Variable run_sync :
  string -> list string -> option (gmap string string) ->
  completion SpawnSyncReturns.
Variable semver_clean : string -> option string.
Variable semver_gte : option string -> string -> completion bool.

Lemma getVersion_host binary h :
  fst (getVersion binary devNull run_sync semver_clean h) =
  logged h binary ["version"] (Some {["RCLONE_CONFIG" := devNull]}).
Proof.
  destruct (run_sync binary ["version"] (Some {["RCLONE_CONFIG" := devNull]}))
    as [[[out|]]|e] eqn:Hrun.
  - rewrite (getVersion_with_output _ _ _ _ _ _ Hrun). reflexivity.
  - rewrite (getVersion_without_output _ _ _ _ _ _ Hrun); [reflexivity | exact I].
  - rewrite (getVersion_without_output _ _ _ _ _ _ Hrun); [reflexivity | exact I].
Qed.

Lemma commandsOf_sync h cmd args env :
  commandsOf (mkHost (sync_calls h ++ [(cmd, args, env)]) (spawned h)) ≡ₚ
  cmd :: commandsOf h.
Proof.
  unfold commandsOf. cbn [sync_calls spawned]. rewrite map_app. simpl.
  rewrite <- List.app_assoc. simpl. symmetry. apply Permutation_middle.
Qed.

Lemma commandsOf_spawn h cmd args opts :
  commandsOf (mkHost (sync_calls h) (spawned h ++ [(cmd, args, opts)])) ≡ₚ
  cmd :: commandsOf h.
Proof.
  unfold commandsOf. cbn [sync_calls spawned]. rewrite map_app. simpl.
  rewrite List.app_assoc. symmetry. apply Permutation_cons_append.
Qed.

Lemma perform_commands d op h :
  Forall (fun cmd => cmd = driver_binary d) (commandsOf h) ->
  Forall (fun cmd => cmd = driver_binary d)
         (commandsOf (perform devNull run_sync semver_clean semver_gte d op h)).
Proof.
  intros Hh.
  assert (forall h0 args env,
            Forall (fun cmd => cmd = driver_binary d) (commandsOf h0) ->
            Forall (fun cmd => cmd = driver_binary d)
                   (commandsOf (mkHost (sync_calls h0 ++ [(driver_binary d, args, env)])
                                       (spawned h0)))) as Hsync.
  { intros. rewrite commandsOf_sync. constructor; auto. }
  assert (forall h0 args opts,
            Forall (fun cmd => cmd = driver_binary d) (commandsOf h0) ->
            Forall (fun cmd => cmd = driver_binary d)
                   (commandsOf (mkHost (sync_calls h0)
                                       (spawned h0 ++ [(driver_binary d, args, opts)]))))
    as Hspawn.
  { intros. rewrite commandsOf_spawn. constructor; auto. }
  assert (Forall (fun cmd => cmd = driver_binary d)
            (commandsOf
               (fst (getConfigFile (driver_binary d) (driver_configFile d)
                       run_sync h)))) as Hconfig.
  { rewrite getConfigFile_eq.
    destruct (driver_configFile d) as [[|c p]|]; try (apply Hsync; exact Hh).
    exact Hh. }
  destruct op as [|minVersion| | |args env|args opts|env]; cbn [perform].
  - rewrite getVersion_host. apply Hsync. exact Hh.
  - unfold versionGte, bind.
    pose proof (getVersion_host (driver_binary d) h) as Hv.
    destruct (getVersion (driver_binary d) devNull run_sync semver_clean h)
      as [h1 [version|e]]; cbn [fst] in *; rewrite Hv; apply Hsync; exact Hh.
  - exact Hconfig.
  - change (getDefaultConfigFile (driver_binary d) run_sync h)
      with (getConfigFile (driver_binary d) None run_sync h).
    rewrite getConfigFile_eq. apply Hsync. exact Hh.
  - unfold command, getCommand, spawnSync. apply Hsync. exact Hh.
  - unfold commandAsync, getCommand, spawn, modify. apply Hspawn. exact Hh.
  - rewrite rcd_eq.
    destruct (getConfigFile (driver_binary d) (driver_configFile d) run_sync h)
      as [h1 [configPath|e]]; cbn [fst] in *; [|exact Hconfig].
    apply Hspawn. exact Hconfig.
Qed.

End DriverInvariant.

(** X15. Every process a driver runs or starts is its resolved binary:
    after any sequence of [getVersion], [versionGte], [getConfigFile],
    [getDefaultConfigFile], [command], [commandAsync] and [rcd] calls on
    one driver, whether they returned or threw, all synchronous runs and
    all started processes recorded on the host name the program
    [getBinary] returns. *)
Theorem driver_runs_its_binary
    (devNull : string)
    (run_sync : string -> list string -> option (gmap string string) ->
                completion SpawnSyncReturns)
    (semver_clean : string -> option string)
    (semver_gte : option string -> string -> completion bool)
    (d : Driver) (ops : list Operation) :
  Forall (fun cmd => cmd = getBinary d)
         (commandsOf
            (performAll devNull run_sync semver_clean semver_gte d ops fresh_host)).
Proof.
  unfold performAll, getBinary.
  assert (Forall (fun cmd => cmd = driver_binary d) (commandsOf fresh_host)) as H
    by constructor.
  revert H. generalize fresh_host.
  induction ops as [|op ops IH]; intros h Hh; simpl; [exact Hh|].
  apply IH. apply perform_commands. exact Hh.
Qed.


(** X17. [getVersion] runs the binary exactly once, with the argument
    [version] and an environment holding only [RCLONE_CONFIG] set to the
    null device, and starts no process.  It returns what [semver.clean]
    makes of the token whenever the call hands back an output array;
    whatever [spawnSync] throws, and a missing output array, become the one
    error [Cannot detect Rclone version.]. *)
Theorem getVersion_outcomes
    (binary devNull : string)
    (run_sync : string -> list string -> option (gmap string string) ->
                completion SpawnSyncReturns)
    (semver_clean : string -> option string) (h : Host) :
  getVersion binary devNull run_sync semver_clean h =
  (mkHost (sync_calls h ++
           [(binary, ["version"], Some {["RCLONE_CONFIG" := devNull]})])
          (spawned h),
   match run_sync binary ["version"] (Some {["RCLONE_CONFIG" := devNull]}) with
   | Normal (mkReturns (Some out)) => Normal (semver_clean (versionToken out))
   | _ => Throw (Error "Cannot detect Rclone version.")
   end).
Proof.
  destruct (run_sync binary ["version"] (Some {["RCLONE_CONFIG" := devNull]}))
    as [[[out|]]|e] eqn:Hrun.
  - apply getVersion_with_output. exact Hrun.
  - apply (getVersion_without_output _ _ _ _ _ _ Hrun). exact I.
  - apply (getVersion_without_output _ _ _ _ _ _ Hrun). exact I.
Qed.

(** ** The command line of a subcommand *)

Section SubcommandFacts.

Lemma splitChar_aux_free c a s cur :
  occurs c a = false ->
  splitChar_aux c (a +:+ s) cur = splitChar_aux c s (cur +:+ a).
Proof.
  revert cur. induction a as [|x a IH]; intros cur Ha.
  - rewrite str_app_nil_l, str_app_nil_r. reflexivity.
  - simpl in Ha. apply orb_false_elim in Ha as [Hx Ha].
    rewrite str_app_cons. simpl. rewrite Hx, IH by exact Ha.
    rewrite str_app_assoc. reflexivity.
Qed.

Lemma splitChar_aux_join c w ws cur :
  Forall (fun x => occurs c x = false) (w :: ws) ->
  splitChar_aux c (join (String c EmptyString) (w :: ws)) cur =
  (cur +:+ w) :: ws.
Proof.
  revert w cur. induction ws as [|w' ws IH]; intros w cur Hws;
    inversion Hws as [|? ? Hw Hrest]; subst.
  - cbn [join]. rewrite <- (str_app_nil_r w) at 1.
    rewrite splitChar_aux_free by exact Hw. reflexivity.
  - change (join (String c EmptyString) (w :: w' :: ws))
      with (w +:+ String c EmptyString +:+ join (String c EmptyString) (w' :: ws)).
    rewrite splitChar_aux_free by exact Hw.
    change (String c EmptyString +:+ join (String c EmptyString) (w' :: ws))
      with (String c (join (String c EmptyString) (w' :: ws))).
    cbn [splitChar_aux]. rewrite Ascii.eqb_refl.
    rewrite IH by exact Hrest. rewrite str_app_nil_l. reflexivity.
Qed.

End SubcommandFacts.

(** X18. The command line of a subcommand is the first word of
    [process.argv] when the application is packed, and the first two
    otherwise, followed by the subcommand, joined by single spaces and
    without any quoting: splitting it at the spaces gives these words back
    when none of them holds a space, and more words than were joined as
    soon as one does. *)
Theorem getSubcommand_words
    (isPacked : bool) (argv : list string) (subcommand : string) :
  let words := firstn (if isPacked then 1 else 2) argv ++ [subcommand] in
  getSubcommand isPacked argv subcommand = join " " words /\
  (Forall (fun w => occurs " " w = false) words ->
   splitChar " " (getSubcommand isPacked argv subcommand) = words).
Proof.
  intros words. split; [reflexivity|]. intros Hw.
  unfold getSubcommand. fold words.
  destruct words as [|w ws] eqn:E.
  - exfalso. subst words. destruct (firstn _ argv); discriminate.
  - unfold splitChar. rewrite splitChar_aux_join by exact Hw.
    rewrite str_app_nil_l. reflexivity.
Qed.

(** An unpacked run from a directory without spaces, and one from a
    directory with a space. *)
Lemma getSubcommand_words_witness :
  splitChar " " (getSubcommand false ["/usr/bin/node"; "/opt/tray/bundle.cjs"; "x"]
                               "ask-pass-config") =
    ["/usr/bin/node"; "/opt/tray/bundle.cjs"; "ask-pass-config"] /\
  splitChar " " (getSubcommand true ["/opt/Rclone Tray/rclonetray"] "about") =
    ["/opt/Rclone"; "Tray/rclonetray"; "about"].
Proof.
  split.
  - destruct (getSubcommand_words false
                ["/usr/bin/node"; "/opt/tray/bundle.cjs"; "x"] "ask-pass-config")
      as [_ H].
    apply H. repeat constructor.
  - reflexivity.
Defined.

(** ** The tabs of the bookmark window *)

Section TabFacts.

Lemma filter_sublist {A} (p : A -> bool) (l : list A) :
  sublist (List.filter p l) l.
Proof.
  induction l as [|a l IH]; simpl; [constructor|].
  destruct (p a); constructor; exact IH.
Qed.

End TabFacts.

(** X19. Every provider option lands on at most one of the tabs [General]
    and [Advanced]: a hidden option is on neither, and an option that is
    not hidden is on [Advanced] when its [Advanced] flag is set and on
    [General] otherwise; both tabs keep the order of the provider's
    list. *)
Theorem tabs_partition (options : list (list (string * json))) :
  (List.length (generalOptions options) +
   List.length (advancedOptions options) +
   List.length (List.filter (optionFlag "Hide") options) =
   List.length options)%nat /\
  (forall a,
     In a (generalOptions options) <->
     In a options /\ optionFlag "Advanced" a = false /\
     optionFlag "Hide" a = false) /\
  (forall a,
     In a (advancedOptions options) <->
     In a options /\ optionFlag "Advanced" a = true /\
     optionFlag "Hide" a = false) /\
  sublist (generalOptions options) options /\
  sublist (advancedOptions options) options.
Proof.
  unfold generalOptions, advancedOptions. repeat split.
  - induction options as [|a options IH]; [reflexivity|]. simpl.
    destruct (optionFlag "Advanced" a), (optionFlag "Hide" a); simpl; lia.
  - apply List.filter_In in H. tauto.
  - apply List.filter_In in H. destruct H as [_ H].
    destruct (optionFlag "Advanced" a); [discriminate | reflexivity].
  - apply List.filter_In in H. destruct H as [_ H].
    destruct (optionFlag "Advanced" a), (optionFlag "Hide" a);
      (discriminate || reflexivity).
  - intros (Hin & Ha & Hh). apply List.filter_In. rewrite Ha, Hh. auto.
  - apply List.filter_In in H. tauto.
  - apply List.filter_In in H. destruct H as [_ H].
    destruct (optionFlag "Advanced" a); [reflexivity | discriminate].
  - apply List.filter_In in H. destruct H as [_ H].
    destruct (optionFlag "Advanced" a), (optionFlag "Hide" a);
      (discriminate || reflexivity).
  - intros (Hin & Ha & Hh). apply List.filter_In. rewrite Ha, Hh. auto.
  - apply filter_sublist.
  - apply filter_sublist.
Qed.
